(** * Holdings normalisation of [scripts/cbonds_fetch.py]

    The script resolves an ISIN on cbonds.com, downloads the fund page,
    extracts the embedded [structure] array and turns it into a sorted list
    of holdings.  This development embeds "Step 4" of [main] (lines 79-137:
    the loop over [structure], the sort and the construction of [result])
    together with the Python built-ins that step relies on, and proves
    properties of it.

    Conventions of the embedding:
    - a Python [str] is the list of its Unicode code points;
    - a Python [float] is an IEEE-754 binary64 value, [spec_float] with
      [prec = 53] and [emax = 1024];
    - a [dict] is the list of its (key, value) pairs in insertion order
      (in a dict that [json.loads] returns the keys are pairwise distinct;
      no statement below needs it);
    - a computation that may raise is a value of [res];
    - [holdings], the one object the step mutates, lives in a frame that
      is passed along. *)

From Stdlib Require Import ZArith List Bool Lia String Ascii.
From Stdlib Require Import Sorting.Sorted Sorting.Permutation.
From Stdlib Require Import Floats.SpecFloat.
Import ListNotations.
Local Open Scope Z_scope.

(** ** Python values and built-ins *)

Module Py.

(** [str]: code points. *)
Definition str := list Z.

(** Source literals are ASCII; [lit] reads one off a Rocq string. *)
Definition lit (s : string) : str :=
  map (fun a => Z.of_N (N_of_ascii a)) (list_ascii_of_string s).
Arguments lit s%_string.

Fixpoint str_eqb (a b : str) : bool :=
  match a, b with
  | [], [] => true
  | x :: a', y :: b' => (x =? y) && str_eqb a' b'
  | _, _ => false
  end.

(** Binary64. *)
Definition prec : Z := 53.
Definition emax : Z := 1024.

Definition float := spec_float.

(** The values [json.loads] can produce. *)
#[warnings="-register-all"]
Inductive value : Type :=
| VNone
| VBool (b : bool)
| VInt (z : Z)
| VFloat (f : float)
| VStr (s : str)
| VList (l : list value)
| VDict (d : list (str * value)).

Definition dict := list (str * value).

(** The exception classes that occur in the embedded code. *)
Inductive exn : Type :=
| AttributeError
| TypeError
| ValueError
| OverflowError.

(** A computation returns a value or raises. *)
Inductive res (A : Type) : Type :=
| Ok (a : A)
| Raise (e : exn).
Arguments Ok {A} a.
Arguments Raise {A} e.

Definition bind {A B} (c : res A) (k : A -> res B) : res B :=
  match c with
  | Ok a => k a
  | Raise e => Raise e
  end.

Notation "x <- c ;; k" := (bind c (fun x => k))
  (at level 61, c at next level, right associativity).

(** [try: c  except (ValueError, TypeError): h] *)
Definition try_except_ValueError_TypeError {A} (c : res A) (h : A) : res A :=
  match c with
  | Raise ValueError | Raise TypeError => Ok h
  | _ => c
  end.

(** *** dict *)

(** The value stored under [k], if the key is present. *)
Fixpoint dict_lookup (d : dict) (k : str) : option value :=
  match d with
  | [] => None
  | (k', v) :: d' => if str_eqb k' k then Some v else dict_lookup d' k
  end.

(** [d.get(k, default)] *)
Definition dict_get (d : dict) (k : str) (default : value) : value :=
  match dict_lookup d k with
  | Some v => v
  | None => default
  end.

(** [list(d.keys())] *)
Definition dict_keys (d : dict) : list str := map fst d.

(** *** Truth values *)

Definition float_is_zero (f : float) : bool :=
  match f with
  | S754_zero _ => true
  | _ => false
  end.

(** [bool(v)] *)
Definition truthy (v : value) : bool :=
  match v with
  | VNone => false
  | VBool b => b
  | VInt z => negb (z =? 0)
  | VFloat f => negb (float_is_zero f)
  | VStr s => match s with [] => false | _ => true end
  | VList l => match l with [] => false | _ => true end
  | VDict d => match d with [] => false | _ => true end
  end.

(** [a or b]; both operands of the source's [or] chains are total. *)
Definition py_or (a b : value) : value := if truthy a then a else b.

Definition is_None (v : value) : bool :=
  match v with
  | VNone => true
  | _ => false
  end.

(** [isinstance(v, str)] *)
Definition isinstance_str (v : value) : bool :=
  match v with
  | VStr _ => true
  | _ => false
  end.

(** *** str.strip() *)

(** [Py_UNICODE_ISSPACE]: the code points [str.isspace] accepts. *)
Definition unicode_isspace (c : Z) : bool :=
  ((9 <=? c) && (c <=? 13)) || ((28 <=? c) && (c <=? 32))
  || (c =? 133) || (c =? 160) || (c =? 5760)
  || ((8192 <=? c) && (c <=? 8202))
  || (c =? 8232) || (c =? 8233) || (c =? 8239) || (c =? 8287) || (c =? 12288).

Fixpoint lstrip (sp : Z -> bool) (s : str) : str :=
  match s with
  | [] => []
  | c :: s' => if sp c then lstrip sp s' else s
  end.

Definition rstrip (sp : Z -> bool) (s : str) : str :=
  rev (lstrip sp (rev s)).

Definition str_strip (s : str) : str :=
  rstrip unicode_isspace (lstrip unicode_isspace s).

(** [v.strip()]: only [str] has the attribute among JSON values. *)
Definition strip (v : value) : res str :=
  match v with
  | VStr s => Ok (str_strip s)
  | _ => Raise AttributeError
  end.

(** *** Floats *)

Definition round_half_even_div (a b : Z) : Z :=
  let q := a / b in
  let r := a mod b in
  match 2 * r ?= b with
  | Lt => q
  | Gt => q + 1
  | Eq => if Z.even q then q else q + 1
  end.

(** The binary64 nearest to [n / d] (ties to even), with sign [s]. *)
Definition float_of_ratio (s : bool) (n d : positive) : float :=
  let '(m, e, l) := SFdiv_core_binary prec emax (Zpos n) 0 (Zpos d) 0 in
  binary_round_aux prec emax s m e l.

(** The binary64 nearest to [(-1)^s * n * 10^e] for [0 <= n], as [strtod]
    computes it: ties to even, infinity beyond the range, subnormals and
    zero below it. *)
Definition float_of_decimal (s : bool) (n : Z) (e : Z) : float :=
  match n with
  | Zpos p =>
      if 0 <=? e then float_of_ratio s (p * Z.to_pos (10 ^ e)) 1
      else float_of_ratio s p (Z.to_pos (10 ^ (- e)))
  | _ => S754_zero s
  end.

(** [int.__float__]: correctly rounded, [OverflowError] beyond the range. *)
Definition float_of_int (z : Z) : res float :=
  match float_of_decimal (z <? 0) (Z.abs z) 0 with
  | S754_infinity _ => Raise OverflowError
  | f => Ok f
  end.

(** **** float(str)

    [PyFloat_FromString]: the string is mapped to ASCII, underscores between
    digits are dropped, ASCII white space is trimmed at both ends, and the
    rest must be a decimal literal, or an infinity or a NaN, in full.
    ([dtoa.c] gives up beyond a billion digits; strings that long are
    outside this model.) *)

(** First code points of the runs of ten decimal digits (category Nd of
    Unicode 14, the table of CPython 3.11). *)
Definition decimal_digit_starts : list Z :=
  [48; 1632; 1776; 1984; 2406; 2534; 2662; 2790; 2918; 3046; 3174; 3302;
   3430; 3558; 3664; 3792; 3872; 4160; 4240; 6112; 6160; 6470; 6608; 6784;
   6800; 6992; 7088; 7232; 7248; 42528; 43216; 43264; 43472; 43504; 43600;
   44016; 65296; 66720; 68912; 69734; 69872; 69942; 70096; 70384; 70736;
   70864; 71248; 71360; 71472; 71904; 72016; 72784; 73040; 73120; 92768;
   92864; 93008; 120782; 120792; 120802; 120812; 120822; 123200; 123632;
   125264; 130032].

(** [Py_UNICODE_TODECIMAL] *)
Definition unicode_todecimal (c : Z) : option Z :=
  match find (fun z => (z <=? c) && (c <? z + 10)) decimal_digit_starts with
  | Some z => Some (c - z)
  | None => None
  end.

(** [_PyUnicode_TransformDecimalAndSpaceToASCII]: at the first code point
    that is none of ASCII, space or digit the output ends with ['?']. *)
Fixpoint transform_decimal_and_space (s : str) : str :=
  match s with
  | [] => []
  | c :: s' =>
      if c <? 127 then c :: transform_decimal_and_space s'
      else if unicode_isspace c then 32 :: transform_decimal_and_space s'
      else match unicode_todecimal c with
           | Some d => (48 + d) :: transform_decimal_and_space s'
           | None => [63]
           end
  end.

Definition is_digit (c : Z) : bool := (48 <=? c) && (c <=? 57).

(** [_Py_string_to_number_with_underscores]: an underscore is allowed only
    between two digits; [prev] is the previous character, NUL at the start. *)
Fixpoint remove_underscores (prev : Z) (s : str) : option str :=
  match s with
  | [] => if prev =? 95 then None else Some []
  | c :: s' =>
      if c =? 95 then
        if is_digit prev then remove_underscores c s' else None
      else if (prev =? 95) && negb (is_digit c) then None
      else option_map (cons c) (remove_underscores c s')
  end.

(** [Py_ISSPACE] *)
Definition ascii_isspace (c : Z) : bool :=
  ((9 <=? c) && (c <=? 13)) || (c =? 32).

(** [Py_TOLOWER] *)
Definition ascii_tolower (c : Z) : Z :=
  if (65 <=? c) && (c <=? 90) then c + 32 else c.

(** A run of digits: its value on top of [acc], its length on top of [nd],
    and what follows it. *)
Fixpoint digits (s : str) (acc nd : Z) : Z * Z * str :=
  match s with
  | [] => (acc, nd, [])
  | c :: s' =>
      if is_digit c then digits s' (10 * acc + (c - 48)) (nd + 1)
      else (acc, nd, s)
  end.

Definition parse_sign (s : str) : bool * str :=
  match s with
  | [] => (false, [])
  | c :: s' =>
      if c =? 45 then (true, s') else if c =? 43 then (false, s') else (false, s)
  end.

(** What follows ['e']: an optional sign and at least one digit, to the end. *)
Definition parse_exponent (s : str) : option Z :=
  let '(neg, s1) := parse_sign s in
  match digits s1 0 0 with
  | (v, nd, []) => if 0 <? nd then Some (if neg then - v else v) else None
  | _ => None
  end.

(** [_Py_dg_strtod] on a string it must consume whole:
    [[sign] (digits [. [digits]] | . digits) [(e|E) [sign] digits]]. *)
Definition parse_number (s : str) : option float :=
  let '(neg, s0) := parse_sign s in
  let '(d1, n1, s1) := digits s0 0 0 in
  let '(d, n2, s2) :=
    match s1 with
    | [] => (d1, 0, [])
    | c :: s1' => if c =? 46 then digits s1' d1 0 else (d1, 0, s1)
    end in
  if n1 + n2 =? 0 then None
  else
    match s2 with
    | [] => Some (float_of_decimal neg d (- n2))
    | c :: s3 =>
        if (c =? 101) || (c =? 69) then
          match parse_exponent s3 with
          | Some e => Some (float_of_decimal neg d (e - n2))
          | None => None
          end
        else None
    end.

(** [_Py_parse_inf_or_nan], again on the whole string. *)
Definition parse_inf_or_nan (s : str) : option float :=
  let '(neg, s0) := parse_sign s in
  let l := map ascii_tolower s0 in
  if str_eqb l (lit "inf") || str_eqb l (lit "infinity")
  then Some (S754_infinity neg)
  else if str_eqb l (lit "nan") then Some S754_nan
  else None.

Definition float_of_str (s : str) : res float :=
  match remove_underscores 0 (transform_decimal_and_space s) with
  | None => Raise ValueError
  | Some a =>
      let b := rstrip ascii_isspace (lstrip ascii_isspace a) in
      match parse_number b with
      | Some f => Ok f
      | None =>
          match parse_inf_or_nan b with
          | Some f => Ok f
          | None => Raise ValueError
          end
      end
  end.

(** [float(v)] *)
Definition float_of_value (v : value) : res float :=
  match v with
  | VNone => Raise TypeError
  | VBool b => float_of_int (if b then 1 else 0)
  | VInt z => float_of_int z
  | VFloat f => Ok f
  | VStr s => float_of_str s
  | VList _ => Raise TypeError
  | VDict _ => Raise TypeError
  end.

Definition float_is_nan (f : float) : bool :=
  match f with
  | S754_nan => true
  | _ => false
  end.

(** [100] and [0.0] as floats. *)
Definition float_100 : float := float_of_decimal false 100 0.
Definition float_0 : float := S754_zero false.

(** [x * y] on floats. *)
Definition float_mul (x y : float) : float := SFmul prec emax x y.

(** [x < y] on floats. *)
Definition float_lt (x y : float) : bool := SFltb x y.

(** [x >= y] on floats. *)
Definition float_ge (x y : float) : bool := SFleb y x.

(** [x == y] on floats. *)
Definition float_eq (x y : float) : bool := SFeqb x y.

(** [round(x, ndigits)] for a float [x] and [0 <= ndigits] (up to
    [NDIGITS_MAX], where CPython returns [x]): [float.__round__] prints [x]
    correctly rounded with [ndigits] digits after the point ([_Py_dg_dtoa],
    mode 3, ties to even) and reads the digits back with [strtod].  Non-finite
    values round to themselves; for [ndigits = 2] the result always fits. *)
Definition round (x : float) (ndigits : Z) : float :=
  match x with
  | S754_finite s m e =>
      let scaled := Zpos m * 10 ^ ndigits in
      let n := if 0 <=? e then scaled * 2 ^ e
               else round_half_even_div scaled (2 ^ (- e)) in
      float_of_decimal s n (- ndigits)
  | _ => x
  end.

(** *** list.sort(key=..., reverse=True)

    CPython sorts with timsort, a stable merge sort that compares keys with
    [<] only; with [reverse=True] it reverses the list, sorts, and reverses
    the result, so that elements with equal keys keep their order.  The
    embedding runs the insertion sort that timsort itself uses on short
    lists.  The two agree whenever [<] is a strict weak order on the keys at
    hand, which for floats means: whenever no key is a NaN; a list then has
    a single descending arrangement that keeps equal keys in order (lemma
    [sort_reverse_unique]).  With NaN keys the order CPython leaves depends
    on the runs and merges of timsort and is not modelled: with a NaN among
    three or more keys [sort_reverse] can return another order than
    [list.sort].  The theorems below use the order only where no key is a
    NaN, or on two entries, where the two coincide; all else they use is
    that the result is a permutation. *)
Section Sort.
Context {A : Type} (key : A -> float).

Fixpoint insert (x : A) (l : list A) : list A :=
  match l with
  | [] => [x]
  | y :: l' => if float_lt (key x) (key y) then x :: l else y :: insert x l'
  end.

Definition sort_ascending (l : list A) : list A :=
  fold_left (fun sorted x => insert x sorted) l [].

Definition sort_reverse (l : list A) : list A :=
  rev (sort_ascending (rev l)).

(** [a] may stand before [b] in ascending order of keys: not [b < a]. *)
Definition ascending (a b : A) : Prop := float_lt (key b) (key a) = false.

(** [a]'s key [== w]. *)
Definition same_key (w : float) (a : A) : bool := float_eq (key a) w.

End Sort.

End Py.

(** ** Step 4 of [main]: from [structure] to [result] *)

Module CbondsFetch.
Import Py.

(** An element of [holdings]: the dict [{"name": ..., "weight": ...}], to
    which the keys ["isin"] and ["ticker"] are added or not. *)
Record entry : Type := {
  e_name : str;
  e_weight : float;
  e_isin : option str;
  e_ticker : option str
}.

(** [result], the object printed at the end. *)
Record report : Type := {
  r_holdings : list entry;
  r_cbondsId : value;
  r_totalCount : Z;
  r_availableFields : list str
}.

(** The variables of [main] that step 4 reads or writes. *)
Record frame : Type := {
  cbonds_id : value;
  structure : list dict;
  holdings : list entry
}.

Definition set_holdings (fr : frame) (h : list entry) : frame :=
  {| cbonds_id := cbonds_id fr; structure := structure fr; holdings := h |}.

(** [holdings.append(entry)] *)
Definition holdings_append (fr : frame) (e : entry) : frame :=
  set_holdings fr (holdings fr ++ [e]).

Definition str_empty (s : str) : bool :=
  match s with
  | [] => true
  | _ => false
  end.

(** Line 82. *)
Definition name_of (item : dict) : res str :=
  strip (dict_get item (lit "asset_name") (VStr [])).

(** Lines 84 and 85. *)
Definition weight_num (item : dict) : value :=
  dict_get item (lit "weight.numeric") VNone.

Definition weight_rounded (item : dict) : value :=
  dict_get item (lit "weight.rounded") VNone.

(** Lines 88-93: the conditional expression tests one chain of [get]s and
    strips the value of another. *)
Definition isin_val (item : dict) : res str :=
  if isinstance_str
       (dict_get item (lit "isin")
          (dict_get item (lit "asset_isin")
             (dict_get item (lit "emitent_isin") VNone)))
  then
    strip (py_or (py_or (py_or (dict_get item (lit "isin") (VStr []))
                               (dict_get item (lit "asset_isin") (VStr [])))
                        (dict_get item (lit "emitent_isin") (VStr [])))
                 (VStr []))
  else Ok [].

(** Lines 96-100. *)
Definition ticker_val (item : dict) : res str :=
  if isinstance_str
       (dict_get item (lit "ticker") (dict_get item (lit "asset_ticker") VNone))
  then
    strip (py_or (py_or (dict_get item (lit "ticker") (VStr []))
                        (dict_get item (lit "asset_ticker") (VStr [])))
                 (VStr []))
  else Ok [].

(** Lines 105-116. *)
Definition weight_of (item : dict) : res float :=
  if negb (is_None (weight_num item)) then
    try_except_ValueError_TypeError
      (x <- float_of_value (weight_num item) ;;
       Ok (round (float_mul x float_100) 2))
      float_0
  else if negb (is_None (weight_rounded item)) then
    try_except_ValueError_TypeError
      (float_of_value (weight_rounded item))
      float_0
  else Ok float_0.

(** Lines 82-122, one pass through the loop body up to the [append]:
    [None] stands for the [continue] of line 103. *)
Definition entry_for (item : dict) : res (option entry) :=
  name <- name_of item ;;
  isin_val <- isin_val item ;;
  ticker_val <- ticker_val item ;;
  if str_empty name then Ok None
  else
    weight <- weight_of item ;;
    Ok (Some {| e_name := name;
                e_weight := weight;
                e_isin := if str_empty isin_val then None else Some isin_val;
                e_ticker := if str_empty ticker_val then None
                            else Some ticker_val |}).

(** Lines 81-123: [for item in structure: ...]. *)
Fixpoint for_item_in (items : list dict) (fr : frame) : res frame :=
  match items with
  | [] => Ok fr
  | item :: rest =>
      e <- entry_for item ;;
      for_item_in rest
        (match e with
         | Some entry => holdings_append fr entry
         | None => fr
         end)
  end.

(** Lines 80-136; returns [result] and the frame it leaves behind. *)
Definition step4 (fr : frame) : res (report * frame) :=
  let fr := set_holdings fr [] in
  fr <- for_item_in (structure fr) fr ;;
  let fr := set_holdings fr (sort_reverse e_weight (holdings fr)) in
  let available_fields :=
    match structure fr with
    | [] => []
    | first :: _ => dict_keys first
    end in
  Ok ({| r_holdings := holdings fr;
         r_cbondsId := cbonds_id fr;
         r_totalCount := Z.of_nat (List.length (holdings fr));
         r_availableFields := available_fields |},
      fr).

(** Step 4 run on a fresh frame: the report for the records [structure]. *)
Definition normalize (cbonds_id : value) (structure : list dict) : res report :=
  r <- step4 {| cbonds_id := cbonds_id; structure := structure;
                holdings := [] |} ;;
  Ok (fst r).

(** The entries the loop appends, in the order of the records they come
    from; [for_item_in] adds exactly these to [holdings]
    (lemma [for_item_in_entries]). *)
Fixpoint entries (items : list dict) : res (list entry) :=
  match items with
  | [] => Ok []
  | item :: rest =>
      e <- entry_for item ;;
      es <- entries rest ;;
      Ok (match e with
          | Some entry => entry :: es
          | None => es
          end)
  end.

(** What [step4] returns when the loop has appended [es]
    (lemma [step4_entries]). *)
Definition report_of (cb : value) (items : list dict) (es : list entry)
  : report :=
  {| r_holdings := sort_reverse e_weight es;
     r_cbondsId := cb;
     r_totalCount := Z.of_nat (List.length (sort_reverse e_weight es));
     r_availableFields := match items with
                          | [] => []
                          | first :: _ => dict_keys first
                          end |}.

(** A record has a usable name when ["asset_name"] holds a string that is
    not empty once stripped. *)
Definition usable_name (item : dict) : bool :=
  match dict_get item (lit "asset_name") (VStr []) with
  | VStr s => negb (str_empty (str_strip s))
  | _ => false
  end.

(** The name a record goes by: its stripped ["asset_name"]. *)
Definition name_value (item : dict) : str :=
  match dict_get item (lit "asset_name") (VStr []) with
  | VStr s => str_strip s
  | _ => []
  end.

(** [float(v)] does not return a NaN: [v] is neither the NaN nor a string
    that spells one. *)
Definition nan_free (v : value) : bool :=
  match float_of_value v with
  | Ok f => negb (float_is_nan f)
  | Raise _ => true
  end.

(** The key [k] is missing from [item] or holds a string. *)
Definition str_or_absent (item : dict) (k : str) : bool :=
  match dict_lookup item k with
  | None => true
  | Some (VStr _) => true
  | Some _ => false
  end.

(** [float(v)] raises [OverflowError], which no handler catches. *)
Definition float_overflows (v : value) : bool :=
  match float_of_value v with
  | Raise OverflowError => true
  | _ => false
  end.

(** Records on which no line of the loop body can raise: the name and
    the candidates for ISIN and ticker are strings where present, and no
    weight is an integer beyond the range of a float. *)
Definition plain_record (item : dict) : bool :=
  str_or_absent item (lit "asset_name")
  && str_or_absent item (lit "isin")
  && str_or_absent item (lit "asset_isin")
  && str_or_absent item (lit "emitent_isin")
  && str_or_absent item (lit "ticker")
  && str_or_absent item (lit "asset_ticker")
  && negb (float_overflows (weight_num item))
  && negb (float_overflows (weight_rounded item)).

(** The rule of the specification for an optional field, in its words:
    the first of the candidate keys that holds a non-empty string wins,
    and its value is stripped. *)
Fixpoint first_nonempty_str (item : dict) (candidates : list str) : str :=
  match candidates with
  | [] => []
  | k :: ks =>
      match dict_lookup item k with
      | Some (VStr (c :: s)) => str_strip (c :: s)
      | _ => first_nonempty_str item ks
      end
  end.

(** JSON literals used in the examples below. *)
Definition json_str (s : string) : value := VStr (lit s).
Arguments json_str s%_string.
Definition json_dec (n e : Z) : value := VFloat (float_of_decimal false n e).

End CbondsFetch.

(** ** Step 3 of [main]: [re.search] for the embedded array *)

Module Re.
Import Py.

(** A set of characters, as an escape or between brackets. *)
Inductive charset : Type :=
| One (c : Z)
| Space
| NotSpace
| Union (a b : charset).

(** [\s] on a [str] pattern is [Py_UNICODE_ISSPACE], as for [strip]. *)
Fixpoint in_charset (cs : charset) (c : Z) : bool :=
  match cs with
  | One c' => c =? c'
  | Space => unicode_isspace c
  | NotSpace => negb (unicode_isspace c)
  | Union a b => in_charset a c || in_charset b c
  end.

(** The constructs that the pattern of line 67 is written with. *)
Inductive regex : Type :=
| Char (cs : charset)
| Seq (r1 r2 : regex)
| Maybe (r : regex)
| Many (cs : charset)
| Many1 (cs : charset)
| Few (cs : charset)
| Capture (r : regex).

(** The matcher backtracks as [sre] does: an alternative is tried only
    when everything after the earlier one has failed.  [k] is what remains
    to be matched; it receives the rest of the input. *)
Section Matcher.
Context {A : Type}.

(** [cs*]: as many characters as possible first. *)
Fixpoint many (cs : charset) (s : str) (k : str -> option A) : option A :=
  match s with
  | [] => k s
  | c :: s' =>
      if in_charset cs c then
        match many cs s' k with
        | Some a => Some a
        | None => k s
        end
      else k s
  end.

(** [cs*?]: as few characters as possible first. *)
Fixpoint few (cs : charset) (s : str) (k : str -> option A) : option A :=
  match k s with
  | Some a => Some a
  | None =>
      match s with
      | [] => None
      | c :: s' => if in_charset cs c then few cs s' k else None
      end
  end.

(** [g] is the text of group 1, once the group has been left. *)
Fixpoint run (r : regex) (s : str) (g : option str)
  (k : str -> option str -> option A) : option A :=
  match r with
  | Char cs =>
      match s with
      | [] => None
      | c :: s' => if in_charset cs c then k s' g else None
      end
  | Seq r1 r2 => run r1 s g (fun s' g' => run r2 s' g' k)
  | Maybe r1 =>
      match run r1 s g k with
      | Some a => Some a
      | None => k s g
      end
  | Many cs => many cs s (fun s' => k s' g)
  | Many1 cs =>
      match s with
      | [] => None
      | c :: s' => if in_charset cs c then many cs s' (fun s'' => k s'' g)
                   else None
      end
  | Few cs => few cs s (fun s' => k s' g)
  | Capture r1 =>
      run r1 s g
        (fun s' _ => k s' (Some (firstn (List.length s - List.length s') s)))
  end.

End Matcher.

(** [pattern.match(s)]: group 1 of the match that starts where [s]
    starts ([None] inside when the group took no part). *)
Definition re_match (r : regex) (s : str) : option (option str) :=
  run r s None (fun _ g => Some g).

(** [re.search(pattern, s)]: the match at the leftmost position that has
    one, reduced to its group 1. *)
Fixpoint re_search (r : regex) (s : str) : option (option str) :=
  match re_match r s with
  | Some g => Some g
  | None =>
      match s with
      | [] => None
      | _ :: s' => re_search r s'
      end
  end.

(** The characters of [s], then [r]. *)
Fixpoint text (s : str) (r : regex) : regex :=
  match s with
  | [] => r
  | c :: s' => Seq (Char (One c)) (text s' r)
  end.

(** Line 67: [(?:var\s+)?structure\s*[:=]\s*(\[[\s\S]*?\])\s*[,;]],
    in parts: the group, what follows it, what follows the optional [var],
    and the whole. *)
Definition group_1 : regex :=
  Capture (Seq (Char (One 91))
          (Seq (Few (Union Space NotSpace)) (Char (One 93)))).

Definition after_group : regex :=
  Seq (Many Space) (Char (Union (One 44) (One 59))).

Definition assignment_pattern : regex :=
  text (lit "structure")
  (Seq (Many Space)
  (Seq (Char (Union (One 58) (One 61)))
  (Seq (Many Space)
  (Seq group_1 after_group)))).

Definition structure_pattern : regex :=
  Seq (Maybe (text (lit "var") (Many1 Space))) assignment_pattern.

(** What the matcher has left to do when it has read the body of the
    group out of [u] and stands before [s]. *)
Definition close_group (u : str) (s : str) : option (option str) :=
  run (Char (One 93)) s None
    (fun s' _ =>
       run after_group s'
         (Some (firstn (List.length u - List.length s') u))
         (fun _ g => Some g)).

(** Vocabulary for what the pattern accepts. *)

Definition all_space (w : str) : bool := forallb unicode_isspace w.

(** [s] reads ["]"], white space, then [","] or [";"]. *)
Definition closes (s : str) : Prop :=
  exists ws t post,
    s = 93 :: ws ++ t :: post /\ all_space ws = true /\ (t = 44 \/ t = 59).

(** [s] starts with [structure], white space, [":"] or ["="], white
    space, and the bracketed text [g], after which [s] closes. *)
Definition assigns (s g : str) : Prop :=
  exists ws1 sep ws2 body rest,
    s = lit "structure" ++ ws1 ++ sep :: ws2 ++ 91 :: body ++ rest /\
    g = 91 :: body ++ [93] /\
    all_space ws1 = true /\ (sep = 58 \/ sep = 61) /\
    all_space ws2 = true /\ closes rest.

(** The same, with the first ["]"] at which [s] closes. *)
Definition assigns_shortest (s g : str) : Prop :=
  exists ws1 sep ws2 body rest,
    s = lit "structure" ++ ws1 ++ sep :: ws2 ++ 91 :: body ++ rest /\
    g = 91 :: body ++ [93] /\
    all_space ws1 = true /\ (sep = 58 \/ sep = 61) /\
    all_space ws2 = true /\ closes rest /\
    (forall b1 b2, body = b1 ++ b2 -> b2 <> [] -> ~ closes (b2 ++ rest)).

End Re.

(** ** [main] as a whole

    The command line, the outcome of the import and the answers of the
    network are given from outside; a run reports the URLs it asked for,
    the objects it printed and how it ended.  A printed object is the
    argument of [json.dumps]; an f-string is kept as its pieces. *)

Module Main.
Import Py CbondsFetch Re.

(** What can be raised: the classes the built-ins of [Py] raise, the ones
    subscripting and [json.loads] add, and, under [LibraryError], any other
    subclass of [Exception] that [curl_cffi] or [json] raise. *)
Inductive exc : Type :=
| Builtin (e : exn)
| KeyError
| IndexError
| JSONDecodeError
| LibraryError (label : string).

Inductive result (A : Type) : Type :=
| Returned (a : A)
| Raised (e : exc).
Arguments Returned {A} a.
Arguments Raised {A} e.

Definition and_then {A B} (c : result A) (k : A -> result B) : result B :=
  match c with
  | Returned a => k a
  | Raised e => Raised e
  end.

Notation "x <~ c ;; k" := (and_then c (fun x => k))
  (at level 61, c at next level, right associativity).

Definition of_res {A} (c : res A) : result A :=
  match c with
  | Ok a => Returned a
  | Raise e => Raised (Builtin e)
  end.

(** [v.get(k, default)]: among JSON values only a dict has [get]. *)
Definition get (v : value) (k : str) (default : value) : result value :=
  match v with
  | VDict d => Returned (dict_get d k default)
  | _ => Raised (Builtin AttributeError)
  end.

(** [v.keys()] *)
Definition keys (v : value) : result (list str) :=
  match v with
  | VDict d => Returned (dict_keys d)
  | _ => Raised (Builtin AttributeError)
  end.

(** [v[0]]; the keys of a dict read from JSON are strings, never [0]. *)
Definition item_0 (v : value) : result value :=
  match v with
  | VList (x :: _) => Returned x
  | VList [] => Raised IndexError
  | VStr (c :: _) => Returned (VStr [c])
  | VStr [] => Raised IndexError
  | VDict _ => Raised KeyError
  | _ => Raised (Builtin TypeError)
  end.

(** [v[k]] for a string [k]. *)
Definition item_str (v : value) (k : str) : result value :=
  match v with
  | VDict d =>
      match dict_lookup d k with
      | Some x => Returned x
      | None => Raised KeyError
      end
  | _ => Raised (Builtin TypeError)
  end.

(** [iter(v)], as [for] calls it: the elements of a list, the characters
    of a string, the keys of a dict. *)
Definition iter (v : value) : result (list value) :=
  match v with
  | VList l => Returned l
  | VStr s => Returned (map (fun c => VStr [c]) s)
  | VDict d => Returned (map (fun kv => VStr (fst kv)) d)
  | _ => Raised (Builtin TypeError)
  end.

(** *** Step 4 on whatever [json.loads] returned *)

(** The loop body on an element that need not be a dict: line 82 starts
    with [item.get]. *)
Definition entry_for_value (item : value) : result (option entry) :=
  match item with
  | VDict d => of_res (entry_for d)
  | _ => Raised (Builtin AttributeError)
  end.

Fixpoint for_item_in_structure (items : list value) (holdings : list entry)
  : result (list entry) :=
  match items with
  | [] => Returned holdings
  | item :: rest =>
      e <~ entry_for_value item ;;
      for_item_in_structure rest
        (match e with
         | Some entry => holdings ++ [entry]
         | None => holdings
         end)
  end.

(** Lines 80-136. *)
Definition step4_of (cbonds_id structure : value) : result report :=
  items <~ iter structure ;;
  holdings <~ for_item_in_structure items [] ;;
  let holdings := sort_reverse e_weight holdings in
  available_fields <~ (if truthy structure
                       then first <~ item_0 structure ;; keys first
                       else Returned []) ;;
  Returned {| r_holdings := holdings;
              r_cbondsId := cbonds_id;
              r_totalCount := Z.of_nat (List.length holdings);
              r_availableFields := available_fields |}.

(** *** What is printed *)

Inductive piece : Type :=
| Text (s : string)
| Format_int (z : Z)
| Format_str (s : str)
| Format_exc (e : exc).

Inductive json_field : Type :=
| JMessage (m : list piece)
| JHoldings (h : list entry)
| JValue (v : value)
| JInt (n : Z)
| JStrings (l : list str).

Definition json_object := list (string * json_field).

(** Lines 131-136. *)
Definition result_object (rep : report) : json_object :=
  [("holdings"%string, JHoldings (r_holdings rep));
   ("cbondsId"%string, JValue (r_cbondsId rep));
   ("totalCount"%string, JInt (r_totalCount rep));
   ("availableFields"%string, JStrings (r_availableFields rep))].

Definition has_key (k : string) (o : json_object) : bool :=
  existsb (fun kv => String.eqb (fst kv) k) o.

(** The value under the key [k], if [o] has it. *)
Fixpoint field (k : string) (o : json_object) : option json_field :=
  match o with
  | [] => None
  | (k', v) :: o' => if String.eqb k' k then Some v else field k o'
  end.

(** *** The world and a run *)

(** The two URLs, by what is formatted into them (lines 32 and 54). *)
Inductive url : Type :=
| SuggestUrl (isin : str)
| EtfUrl (cbonds_id : value).

(** What the code reads of a response: [r.status_code], [r.json()]
    (which may raise) and [r.text]. *)
Record response : Type := {
  status_code : Z;
  json : result value;
  text_ : str
}.

Record world : Type := {
  argv : list str;
  curl_cffi_installed : bool;
  requests_get : url -> result response
}.

(** How a run ends: [sys.exit(code)], the end of [main], or an exception
    nobody caught. *)
Inductive ending : Type :=
| SystemExit (code : Z)
| Return
| Traceback (e : exc).

Record outcome : Type := {
  requested : list url;
  printed : list json_object;
  ended : ending
}.

(** The exit status of the process. *)
Definition exit_status (r : outcome) : Z :=
  match ended r with
  | SystemExit code => code
  | Return => 0
  | Traceback _ => 1
  end.

(** [print(json.dumps(o)); sys.exit(code)] *)
Definition stop (requested : list url) (o : json_object) (code : Z) : outcome :=
  {| requested := requested; printed := [o]; ended := SystemExit code |}.

(** How a [try] body ends: it binds its variable, leaves through
    [sys.exit] (which [except Exception] does not catch), or raises. *)
Inductive attempt (A : Type) : Type :=
| Bound (a : A)
| Exits (o : json_object) (code : Z)
| Fails (e : exc).
Arguments Bound {A} a.
Arguments Exits {A} o code.
Arguments Fails {A} e.

(** Lines 34-48, the body of the first [try]. *)
Definition resolve_id (w : world) (isin : str) : attempt value :=
  match requests_get w (SuggestUrl isin) with
  | Raised e => Fails e
  | Returned r =>
      if negb (status_code r =? 200) then
        Exits [("error"%string,
                JMessage [Text "Suggest API returned status ";
                          Format_int (status_code r)])] 1
      else
        match json r with
        | Raised e => Fails e
        | Returned data =>
            match (response <~ get data (lit "response") (VDict []) ;;
                   get response (lit "items") (VList [])) with
            | Raised e => Fails e
            | Returned items =>
                if negb (truthy items) then
                  Exits [("error"%string,
                          JMessage [Text "No ETF found on cbonds for ISIN ";
                                    Format_str isin]);
                         ("holdings"%string, JHoldings [])] 0
                else
                  match (first <~ item_0 items ;;
                         item_str first (lit "id")) with
                  | Raised e => Fails e
                  | Returned cbonds_id => Bound cbonds_id
                  end
            end
        end
  end.

(** Lines 56-60, the body of the second [try]. *)
Definition fetch_page (w : world) (cbonds_id : value) : attempt str :=
  match requests_get w (EtfUrl cbonds_id) with
  | Raised e => Fails e
  | Returned r =>
      if negb (status_code r =? 200) then
        Exits [("error"%string,
                JMessage [Text "ETF page returned status ";
                          Format_int (status_code r)])] 1
      else Bound (text_ r)
  end.

Section Program.

(** [str.upper], whose case tables are outside the source. *)
Variable upper : str -> str.

(** [json.loads] on a string (or on [None], when group 1 is unset). *)
Variable json_loads : option str -> result value.

(** Lines 66-137, once the page is there. *)
Definition extract_and_report (cbonds_id : value) (html : str)
  (requested : list url) : outcome :=
  match re_search structure_pattern html with
  | None =>
      stop requested
        [("error"%string,
          JMessage [Text "Could not find structure data in page"]);
         ("holdings"%string, JHoldings []);
         ("cbondsId"%string, JValue cbonds_id)] 0
  | Some group1 =>
      match json_loads group1 with
      | Raised JSONDecodeError =>
          stop requested
            [("error"%string,
              JMessage [Text "Failed to parse structure JSON: ";
                        Format_exc JSONDecodeError])] 1
      | Raised e =>
          {| requested := requested; printed := []; ended := Traceback e |}
      | Returned structure =>
          match step4_of cbonds_id structure with
          | Raised e =>
              {| requested := requested; printed := [];
                 ended := Traceback e |}
          | Returned rep =>
              {| requested := requested; printed := [result_object rep];
                 ended := Return |}
          end
      end
  end.

(** Lines 18-137. *)
Definition main (w : world) : outcome :=
  if (Z.of_nat (List.length (argv w)) <? 2) then
    stop [] [("error"%string, JMessage [Text "Missing ISIN argument"])] 1
  else
    let isin := upper (str_strip (nth 1 (argv w) [])) in
    if negb (curl_cffi_installed w) then
      stop []
        [("error"%string,
          JMessage [Text "curl_cffi not installed. Run: pip install curl_cffi"])]
        1
    else
      match resolve_id w isin with
      | Exits o code => stop [SuggestUrl isin] o code
      | Fails e =>
          stop [SuggestUrl isin]
            [("error"%string,
              JMessage [Text "Failed to resolve cbonds ID: "; Format_exc e])]
            1
      | Bound cbonds_id =>
          match fetch_page w cbonds_id with
          | Exits o code => stop [SuggestUrl isin; EtfUrl cbonds_id] o code
          | Fails e =>
              stop [SuggestUrl isin; EtfUrl cbonds_id]
                [("error"%string,
                  JMessage [Text "Failed to fetch ETF page: "; Format_exc e])]
                1
          | Bound html =>
              extract_and_report cbonds_id html
                [SuggestUrl isin; EtfUrl cbonds_id]
          end
      end.

End Program.

(** *** A sample world, for the examples below *)

Definition quoted (s : string) : str := 34 :: lit s ++ [34].
Arguments quoted s%_string.

Definition sample_array : str :=
  lit "[{" ++ quoted "asset_name" ++ lit ": " ++ quoted "Apple Inc" ++
  lit ", " ++ quoted "weight.numeric" ++ lit ": 0.071234}]".

Definition sample_page : str :=
  lit "<script>var structure = " ++ sample_array ++ lit ";</script>".

(** Stand-ins for the two parameters: upper case for ASCII letters, and
    a [json.loads] that knows two texts. *)
Definition sample_upper (s : str) : str :=
  map (fun c => if (97 <=? c) && (c <=? 122) then c - 32 else c) s.

Definition sample_loads (g : option str) : result value :=
  match g with
  | None => Raised (Builtin TypeError)
  | Some t =>
      if str_eqb t sample_array then
        Returned (VList [VDict [(lit "asset_name", VStr (lit "Apple Inc"));
                                (lit "weight.numeric",
                                 VFloat (float_of_decimal false 71234 (-6)))]])
      else if str_eqb t (lit "[1]") then Returned (VList [VInt 1])
      else Raised JSONDecodeError
  end.

(** Both requests are answered with status 200; the fund page is [page]. *)
Definition sample_world (page : str) : world :=
  {| argv := [lit "cbonds_fetch.py"; lit " ie00b4l5y983 "];
     curl_cffi_installed := true;
     requests_get := fun u =>
       match u with
       | SuggestUrl _ =>
           Returned
             {| status_code := 200;
                json := Returned
                  (VDict [(lit "response",
                           VDict [(lit "items",
                                   VList [VDict [(lit "id", VInt 1807)]])])]);
                text_ := [] |}
       | EtfUrl _ =>
           Returned {| status_code := 200; json := Raised JSONDecodeError;
                       text_ := page |}
       end |}.

End Main.

Import Py CbondsFetch.

(** ** The loop and the report *)

Lemma for_item_in_entries (items : list dict) (fr : frame) :
  for_item_in items fr =
  (es <- entries items ;; Ok (set_holdings fr (holdings fr ++ es))).
Proof.
  revert fr; induction items as [|item rest IH]; intros fr; simpl.
  - rewrite app_nil_r. now destruct fr.
  - destruct (entry_for item) as [[e|]|x]; simpl; trivial; rewrite IH;
      destruct (entries rest) as [es|x]; simpl; trivial.
    unfold holdings_append, set_holdings; simpl.
    now rewrite <- app_assoc.
Qed.

Lemma step4_entries (fr : frame) :
  step4 fr =
  (es <- entries (structure fr) ;;
   Ok (report_of (cbonds_id fr) (structure fr) es,
       set_holdings fr (sort_reverse e_weight es))).
Proof.
  unfold step4. rewrite for_item_in_entries. simpl.
  destruct (entries (structure fr)) as [es|x]; simpl; trivial.
Qed.

Lemma normalize_entries (cb : value) (items : list dict) :
  normalize cb items = (es <- entries items ;; Ok (report_of cb items es)).
Proof.
  unfold normalize. rewrite step4_entries. simpl.
  destruct (entries items); reflexivity.
Qed.

Lemma normalize_Ok_inv (cb : value) (items : list dict) (rep : report) :
  normalize cb items = Ok rep ->
  exists es, entries items = Ok es /\ rep = report_of cb items es.
Proof.
  rewrite normalize_entries. destruct (entries items) as [es|x]; simpl;
    intros H; inversion H. now exists es.
Qed.

(** ** One record *)

Lemma entry_for_Some_inv (item : dict) (e : entry) :
  entry_for item = Ok (Some e) ->
  exists n i t w,
    name_of item = Ok n /\ str_empty n = false /\
    isin_val item = Ok i /\ ticker_val item = Ok t /\
    weight_of item = Ok w /\
    e = {| e_name := n; e_weight := w;
           e_isin := if str_empty i then None else Some i;
           e_ticker := if str_empty t then None else Some t |}.
Proof.
  unfold entry_for.
  destruct (name_of item) as [n|x]; simpl; [|discriminate].
  destruct (isin_val item) as [i|x]; simpl; [|discriminate].
  destruct (ticker_val item) as [t|x]; simpl; [|discriminate].
  destruct (str_empty n) eqn:En; [discriminate|].
  destruct (weight_of item) as [w|x]; simpl; [|discriminate].
  intros H; inversion H; subst. now exists n, i, t, w.
Qed.

Lemma entry_for_weight (item : dict) (e : entry) :
  entry_for item = Ok (Some e) -> weight_of item = Ok (e_weight e).
Proof.
  intros H. apply entry_for_Some_inv in H.
  destruct H as (n & i & t & w & _ & _ & _ & _ & Hw & ->). exact Hw.
Qed.

Lemma float_of_value_Ok_not_None (v : value) (f : float) :
  float_of_value v = Ok f -> is_None v = false.
Proof. destruct v; simpl; trivial; discriminate. Qed.

Lemma dict_get_lookup_Some (d : dict) (k : str) (v default : value) :
  dict_lookup d k = Some v -> dict_get d k default = v.
Proof. unfold dict_get. now intros ->. Qed.

Lemma dict_get_lookup_None (d : dict) (k : str) (default : value) :
  dict_lookup d k = None -> dict_get d k default = default.
Proof. unfold dict_get. now intros ->. Qed.

(** The weight when ["weight.numeric"] converts. *)
Lemma weight_of_numeric (item : dict) (f : float) :
  float_of_value (weight_num item) = Ok f ->
  weight_of item = Ok (round (float_mul f float_100) 2).
Proof.
  intros Hf. unfold weight_of.
  rewrite (float_of_value_Ok_not_None _ _ Hf), Hf. reflexivity.
Qed.

(** The weight when ["weight.numeric"] is absent or null. *)
Lemma weight_of_numeric_None (item : dict) :
  weight_num item = VNone ->
  weight_of item =
  if is_None (weight_rounded item) then Ok float_0
  else try_except_ValueError_TypeError
         (float_of_value (weight_rounded item)) float_0.
Proof.
  intros Hn. unfold weight_of. rewrite Hn. simpl.
  now destruct (is_None (weight_rounded item)).
Qed.

(** ** Weights *)

(** C5: when ["weight.numeric"] is present and [float] converts it, the
    weight of the record's entry is the product by 100 rounded to two
    decimals; a fractional weight of 0.045573 comes out as 4.56. *)
Theorem numeric_weight_times_100_rounded :
  (forall (item : dict) (e : entry) (v : value) (f : float),
      entry_for item = Ok (Some e) ->
      dict_lookup item (lit "weight.numeric") = Some v ->
      float_of_value v = Ok f ->
      e_weight e = round (float_mul f float_100) 2)
  /\
  entry_for [(lit "asset_name", json_str "A");
             (lit "weight.numeric", json_dec 45573 (-6))]
  = Ok (Some {| e_name := lit "A";
                e_weight := float_of_decimal false 456 (-2);
                e_isin := None; e_ticker := None |}).
Proof.
  split.
  - intros item e v f He Hv Hf.
    apply entry_for_weight in He.
    assert (Hn : weight_num item = v)
      by (unfold weight_num; now apply dict_get_lookup_Some).
    rewrite <- Hn in Hf. rewrite (weight_of_numeric _ _ Hf) in He.
    now inversion He.
  - vm_compute. reflexivity.
Qed.

Lemma numeric_weight_times_100_rounded_witness :
  e_weight {| e_name := lit "B";
              e_weight := float_of_decimal false 25 0;
              e_isin := None; e_ticker := None |}
  = round (float_mul (float_of_decimal false 25 (-2)) float_100) 2.
Proof.
  apply (proj1 numeric_weight_times_100_rounded
           [(lit "asset_name", json_str "B");
            (lit "weight.numeric", json_str "0.25")]
           _ (json_str "0.25") (float_of_decimal false 25 (-2)));
    vm_compute; reflexivity.
Defined.

(** C3, as stated, fails: a ["weight.numeric"] that does not convert is
    caught by the first [except] clause, which sets the weight to 0.0;
    the [elif] on ["weight.rounded"] is not reached. *)
Lemma unconvertible_numeric_counterexample :
  let item := [(lit "asset_name", json_str "A");
               (lit "weight.numeric", json_str "abc");
               (lit "weight.rounded", json_dec 5 0)] in
  float_of_value (weight_num item) = Raise ValueError /\
  float_of_value (weight_rounded item) = Ok (float_of_decimal false 5 0) /\
  (exists e, entry_for item = Ok (Some e) /\ e_weight e = float_0 /\
             e_weight e <> float_of_decimal false 5 0).
Proof.
  cbv zeta. split; [vm_compute; reflexivity|].
  split; [vm_compute; reflexivity|].
  eexists. split; [vm_compute; reflexivity|].
  split; [reflexivity|]. vm_compute. discriminate.
Qed.

(** C3, amended: when ["weight.numeric"] is absent or null and
    ["weight.rounded"] converts, the weight is the converted value as it
    is; when ["weight.numeric"] holds a value that [float] rejects, the
    weight is 0.0 whatever ["weight.rounded"] holds; when
    ["weight.numeric"] is absent or null and ["weight.rounded"] is absent,
    null or rejected by [float], the weight is 0.0. *)
Theorem weight_priority_order (item : dict) (e : entry) :
  entry_for item = Ok (Some e) ->
  (weight_num item = VNone ->
   forall f, float_of_value (weight_rounded item) = Ok f -> e_weight e = f)
  /\
  (weight_num item <> VNone ->
   forall x, float_of_value (weight_num item) = Raise x ->
             e_weight e = float_0)
  /\
  (weight_num item = VNone ->
   weight_rounded item = VNone \/
   (exists x, float_of_value (weight_rounded item) = Raise x) ->
   e_weight e = float_0).
Proof.
  intros He. apply entry_for_weight in He. repeat split.
  - intros Hn f Hf. rewrite (weight_of_numeric_None _ Hn) in He.
    rewrite (float_of_value_Ok_not_None _ _ Hf), Hf in He.
    now inversion He.
  - intros Hn x Hx. unfold weight_of in He.
    destruct (weight_num item); try contradiction; simpl in He;
      rewrite ?Hx in He; simpl in Hx; rewrite ?Hx in He;
      try discriminate; destruct x; simpl in He; try discriminate;
      now inversion He.
  - intros Hn Hr. rewrite (weight_of_numeric_None _ Hn) in He.
    destruct Hr as [Hr|[x Hx]].
    + rewrite Hr in He. simpl in He. now inversion He.
    + destruct (is_None (weight_rounded item)); [now inversion He|].
      rewrite Hx in He. destruct x; simpl in He; try discriminate;
        now inversion He.
Qed.

Lemma weight_priority_order_witness :
  let entry w := {| e_name := lit "A"; e_weight := w;
                    e_isin := None; e_ticker := None |} in
  e_weight (entry (float_of_decimal false 5 0)) = float_of_decimal false 5 0
  /\ e_weight (entry float_0) = float_0
  /\ e_weight (entry float_0) = float_0.
Proof.
  cbv zeta. split; [|split].
  - refine (proj1 (weight_priority_order
                     [(lit "asset_name", json_str "A");
                      (lit "weight.rounded", json_dec 5 0)] _ _) _ _ _);
      vm_compute; reflexivity.
  - refine (proj1 (proj2 (weight_priority_order
                     [(lit "asset_name", json_str "A");
                      (lit "weight.numeric", json_str "abc");
                      (lit "weight.rounded", json_dec 5 0)] _ _))
              _ ValueError _);
      vm_compute; try reflexivity; discriminate.
  - refine (proj2 (proj2 (weight_priority_order
                     [(lit "asset_name", json_str "A");
                      (lit "weight.rounded", VList [])] _ _))
              _ (or_intror (ex_intro _ TypeError _)));
      vm_compute; reflexivity.
Defined.

(** C10: a ["weight.numeric"] that is present with the value null is
    treated like an absent one: ["weight.rounded"] decides, its converted
    value is the weight, and if it is absent or null too the weight is
    0.0. *)
Theorem null_numeric_weight_like_absent (item : dict) (e : entry) :
  entry_for item = Ok (Some e) ->
  dict_lookup item (lit "weight.numeric") = Some VNone ->
  (forall v f, dict_lookup item (lit "weight.rounded") = Some v ->
               float_of_value v = Ok f -> e_weight e = f)
  /\
  (dict_lookup item (lit "weight.rounded") = None \/
   dict_lookup item (lit "weight.rounded") = Some VNone ->
   e_weight e = float_0).
Proof.
  intros He Hnull. apply entry_for_weight in He.
  assert (Hn : weight_num item = VNone)
    by (unfold weight_num; now apply dict_get_lookup_Some).
  rewrite (weight_of_numeric_None _ Hn) in He. split.
  - intros v f Hv Hf.
    assert (Hr : weight_rounded item = v)
      by (unfold weight_rounded; now apply dict_get_lookup_Some).
    rewrite Hr, (float_of_value_Ok_not_None _ _ Hf), Hf in He.
    now inversion He.
  - intros Hr.
    assert (Hr' : weight_rounded item = VNone).
    { unfold weight_rounded. destruct Hr as [Hr|Hr].
      - now apply dict_get_lookup_None.
      - now apply dict_get_lookup_Some. }
    rewrite Hr' in He. now inversion He.
Qed.

Lemma null_numeric_weight_like_absent_witness :
  let entry w := {| e_name := lit "A"; e_weight := w;
                    e_isin := None; e_ticker := None |} in
  e_weight (entry (float_of_decimal false 125 (-2)))
  = float_of_decimal false 125 (-2)
  /\ e_weight (entry float_0) = float_0.
Proof.
  cbv zeta. split.
  - refine (proj1 (null_numeric_weight_like_absent
                     [(lit "asset_name", json_str "A");
                      (lit "weight.numeric", VNone);
                      (lit "weight.rounded", json_dec 125 (-2))] _ _ _)
                  (json_dec 125 (-2)) _ _ _);
      vm_compute; reflexivity.
  - refine (proj2 (null_numeric_weight_like_absent
                     [(lit "asset_name", json_str "A");
                      (lit "weight.numeric", VNone);
                      (lit "weight.rounded", VNone)] _ _ _)
                  (or_intror _));
      vm_compute; reflexivity.
Defined.

(** ** Optional fields and failures *)

(** C1, at a failing input: the guard of lines 88-93 looks at ["isin"]
    (an empty string, so the test passes) while the [or] chain moves on to
    ["asset_isin"] (an integer), and [.strip()] raises; the exception is
    not caught and the whole run stops. *)
Theorem isin_guard_mismatch_raises (cb : value) :
  normalize cb [[(lit "asset_name", json_str "A");
                 (lit "isin", json_str "");
                 (lit "asset_isin", VInt 5)]]
  = Raise AttributeError.
Proof. vm_compute. reflexivity. Qed.

(** Other records that stop the run: a name that is not a string, and an
    integer weight beyond the range of a float. *)
Lemma non_string_name_raises (cb : value) :
  normalize cb [[(lit "asset_name", VNone)]] = Raise AttributeError.
Proof. vm_compute. reflexivity. Qed.

Lemma huge_int_weight_raises (cb : value) :
  normalize cb [[(lit "asset_name", json_str "A");
                 (lit "weight.numeric", VInt (10 ^ 400))]]
  = Raise OverflowError.
Proof. vm_compute. reflexivity. Qed.

(** C2, at a failing input: ["isin"] is null and ["asset_isin"] holds an
    ISIN; the guard sees the null, and the entry gets no ["isin"]. *)
Theorem null_isin_hides_asset_isin :
  entry_for [(lit "asset_name", json_str "A");
             (lit "isin", VNone);
             (lit "asset_isin", json_str "US0378331005")]
  = Ok (Some {| e_name := lit "A"; e_weight := float_0;
                e_isin := None; e_ticker := None |}).
Proof. vm_compute. reflexivity. Qed.

(** A first candidate made of blanks is chosen by the [or] chain and
    stripped to nothing; the later candidate is not used. *)
Lemma blank_isin_hides_asset_isin :
  entry_for [(lit "asset_name", json_str "A");
             (lit "isin", json_str "  ");
             (lit "asset_isin", json_str "US0378331005")]
  = Ok (Some {| e_name := lit "A"; e_weight := float_0;
                e_isin := None; e_ticker := None |}).
Proof. vm_compute. reflexivity. Qed.

(** On records whose candidates are strings where present, the guard and
    the [or] chain agree, and the code follows the rule of the
    specification. *)
Lemma isin_val_of_strings (item : dict) :
  str_or_absent item (lit "isin") = true ->
  str_or_absent item (lit "asset_isin") = true ->
  str_or_absent item (lit "emitent_isin") = true ->
  isin_val item =
  Ok (first_nonempty_str item
        [lit "isin"; lit "asset_isin"; lit "emitent_isin"]).
Proof.
  unfold isin_val, str_or_absent, first_nonempty_str, dict_get.
  destruct (dict_lookup item (lit "isin")) as [[| | | |[|]| |]|];
    try discriminate; intros _;
    (destruct (dict_lookup item (lit "asset_isin")) as [[| | | |[|]| |]|];
     try discriminate; intros _);
    (destruct (dict_lookup item (lit "emitent_isin")) as [[| | | |[|]| |]|];
     try discriminate; intros _);
    reflexivity.
Qed.

Lemma ticker_val_of_strings (item : dict) :
  str_or_absent item (lit "ticker") = true ->
  str_or_absent item (lit "asset_ticker") = true ->
  ticker_val item =
  Ok (first_nonempty_str item [lit "ticker"; lit "asset_ticker"]).
Proof.
  unfold ticker_val, str_or_absent, first_nonempty_str, dict_get.
  destruct (dict_lookup item (lit "ticker")) as [[| | | |[|]| |]|];
    try discriminate; intros _;
    (destruct (dict_lookup item (lit "asset_ticker")) as [[| | | |[|]| |]|];
     try discriminate; intros _);
    reflexivity.
Qed.

Lemma float_of_value_exn (v : value) (x : exn) :
  float_of_value v = Raise x -> x <> AttributeError.
Proof.
  destruct v; simpl; try (intros H; inversion H; discriminate).
  - unfold float_of_int.
    destruct (float_of_decimal _ _ _); intros H; inversion H; discriminate.
  - unfold float_of_int.
    destruct (float_of_decimal _ _ _); intros H; inversion H; discriminate.
  - unfold float_of_str.
    destruct (remove_underscores _ _);
      [|intros H; inversion H; discriminate].
    destruct (parse_number _); [discriminate|].
    destruct (parse_inf_or_nan _); [discriminate|].
    intros H; inversion H; discriminate.
Qed.

Lemma weight_of_total (item : dict) :
  float_overflows (weight_num item) = false ->
  float_overflows (weight_rounded item) = false ->
  exists w, weight_of item = Ok w.
Proof.
  unfold weight_of, float_overflows.
  destruct (is_None (weight_num item)); simpl.
  - intros _. destruct (is_None (weight_rounded item)); simpl;
      [eauto|].
    destruct (float_of_value (weight_rounded item)) as [w|[]] eqn:E; simpl;
      try discriminate; eauto.
    now destruct (float_of_value_exn _ _ E).
  - destruct (float_of_value (weight_num item)) as [w|[]] eqn:E; simpl;
      try discriminate; eauto.
    now destruct (float_of_value_exn _ _ E).
Qed.

(** On plain records the loop body runs to its end. *)
Lemma entry_for_plain (item : dict) :
  plain_record item = true -> exists oe, entry_for item = Ok oe.
Proof.
  unfold plain_record. rewrite !andb_true_iff, !negb_true_iff.
  intros [[[[[[[Hname Hi1] Hi2] Hi3] Ht1] Ht2] Hw1] Hw2].
  unfold entry_for.
  rewrite (isin_val_of_strings _ Hi1 Hi2 Hi3),
    (ticker_val_of_strings _ Ht1 Ht2).
  destruct (weight_of_total _ Hw1 Hw2) as [w Hw]. rewrite Hw.
  unfold name_of, dict_get. unfold str_or_absent in Hname.
  destruct (dict_lookup item (lit "asset_name")) as [[]|];
    try discriminate; simpl;
    try match goal with
      | |- context [str_empty ?n] => destruct (str_empty n)
      end; eauto.
Qed.

Lemma entries_plain (items : list dict) :
  forallb plain_record items = true -> exists es, entries items = Ok es.
Proof.
  induction items as [|item rest IH]; simpl; [eauto|].
  rewrite andb_true_iff. intros [Hitem Hrest].
  destruct (entry_for_plain _ Hitem) as [oe ->].
  destruct (IH Hrest) as [es ->]. simpl. eauto.
Qed.

(** A batch of plain records is normalised without an exception. *)
Lemma normalize_plain (cb : value) (items : list dict) :
  forallb plain_record items = true -> exists rep, normalize cb items = Ok rep.
Proof.
  intros H. rewrite normalize_entries.
  destruct (entries_plain _ H) as [es ->]. simpl. eauto.
Qed.

(** ** The report *)

(** C7: the end-to-end scenario of the specification. *)
Theorem end_to_end_scenario (cb : value) :
  normalize cb
    [[(lit "asset_name", json_str "Apple Inc");
      (lit "weight.numeric", json_dec 71234 (-6))];
     [(lit "asset_name", json_str "");
      (lit "weight.numeric", json_dec 5 (-2))];
     [(lit "asset_name", json_str "Microsoft");
      (lit "weight.rounded", json_dec 50 (-1))]]
  = Ok {| r_holdings :=
            [{| e_name := lit "Apple Inc";
                e_weight := float_of_decimal false 712 (-2);
                e_isin := None; e_ticker := None |};
             {| e_name := lit "Microsoft";
                e_weight := float_of_decimal false 50 (-1);
                e_isin := None; e_ticker := None |}];
          r_cbondsId := cb;
          r_totalCount := 2;
          r_availableFields := [lit "asset_name"; lit "weight.numeric"] |}.
Proof. vm_compute. reflexivity. Qed.

(** C9: no records give an empty report; otherwise [availableFields] lists
    the keys of the first record, whatever the other records are. *)
Theorem available_fields_of_first_record (cb : value) :
  normalize cb [] = Ok {| r_holdings := []; r_cbondsId := cb;
                          r_totalCount := 0; r_availableFields := [] |}
  /\
  (forall first rest rep,
      normalize cb (first :: rest) = Ok rep ->
      r_availableFields rep = dict_keys first).
Proof.
  split; [reflexivity|].
  intros first rest rep H.
  apply normalize_Ok_inv in H. destruct H as (es & _ & ->). reflexivity.
Qed.

Lemma available_fields_of_first_record_witness :
  r_availableFields
    {| r_holdings := [{| e_name := lit "A"; e_weight := float_0;
                         e_isin := None; e_ticker := Some (lit "T") |}];
       r_cbondsId := VInt 1807;
       r_totalCount := 1;
       r_availableFields := [lit "asset_name"; lit "ticker"] |}
  = dict_keys [(lit "asset_name", json_str "A"); (lit "ticker", json_str "T")].
Proof.
  apply (proj2 (available_fields_of_first_record (VInt 1807)) _
           [[(lit "asset_isin", json_str "X")]]).
  vm_compute. reflexivity.
Defined.

(** ** Order of floats, NaN apart *)

Ltac compare_cases :=
  repeat match goal with
    | |- context [Pos.compare_cont Eq ?a ?b] =>
        change (Pos.compare_cont Eq a b) with (Pos.compare a b)
    end;
  repeat match goal with
    | |- context [Z.compare ?a ?b] => destruct (Z.compare_spec a b)
    | |- context [Pos.compare ?a ?b] => destruct (Pos.compare_spec a b)
    end.

Ltac float_order :=
  unfold float_lt, float_ge, float_eq, float_is_nan, SFltb, SFleb, SFeqb,
    SFcompare;
  repeat match goal with
    | x : float |- _ => destruct x as [[|]|[|]| |[|] ? ?]
    end;
  simpl; try congruence; compare_cases; simpl; intros; try congruence;
  try lia.

Lemma float_lt_asym (x y : float) :
  float_lt x y = true -> float_lt y x = false.
Proof. float_order. Qed.

Lemma float_lt_irrefl (x : float) : float_lt x x = false.
Proof.
  destruct (float_lt x x) eqn:E; trivial.
  now rewrite (float_lt_asym _ _ E) in E.
Qed.

Lemma float_not_lt_trans (x y z : float) :
  float_is_nan x = false -> float_is_nan y = false ->
  float_is_nan z = false ->
  float_lt y x = false -> float_lt z y = false -> float_lt z x = false.
Proof. float_order. Qed.

Lemma float_lt_not_lt_trans (x y z : float) :
  float_is_nan z = false ->
  float_lt x y = true -> float_lt z y = false -> float_lt x z = true.
Proof. float_order. Qed.

Lemma float_eq_lt_differ (x z w : float) :
  float_eq x w = true -> float_lt x z = true -> float_eq z w = false.
Proof. float_order. Qed.

Lemma float_eq_nan (w : float) : float_eq S754_nan w = false.
Proof. reflexivity. Qed.

Lemma float_not_lt_ge (a b : float) :
  float_is_nan a = false -> float_is_nan b = false ->
  float_lt a b = false -> float_ge a b = true.
Proof. float_order. Qed.

Lemma float_eq_refl (a : float) :
  float_is_nan a = false -> float_eq a a = true.
Proof.
  unfold float_eq, float_is_nan, SFeqb, SFcompare.
  destruct a as [[|]|[|]| |[|] m e]; simpl; try congruence; intros _;
    rewrite Z.compare_refl; change (Pos.compare_cont Eq m m) with (m ?= m)%positive;
    now rewrite Pos.compare_refl.
Qed.

Lemma float_not_lt_eq (a b : float) :
  float_is_nan a = false -> float_is_nan b = false ->
  float_lt a b = false -> float_lt b a = false -> float_eq b a = true.
Proof. float_order. Qed.

Lemma float_ge_nan_l (b : float) : float_ge S754_nan b = false.
Proof. now destruct b. Qed.

Lemma float_ge_nan_r (a : float) : float_ge a S754_nan = false.
Proof. now destruct a. Qed.

(** ** The sort *)

Lemma filter_none {A : Type} (p : A -> bool) (l : list A) :
  (forall z, In z l -> p z = false) -> filter p l = [].
Proof.
  induction l as [|y l IH]; simpl; intros H; trivial.
  rewrite (H y) by now left. apply IH. intros z Hz. apply H. now right.
Qed.

Section SortFacts.
Context {A : Type} (key : A -> float).

Lemma insert_Permutation (x : A) (l : list A) :
  Permutation (insert key x l) (x :: l).
Proof.
  induction l as [|y l IH]; simpl; [reflexivity|].
  destruct (float_lt (key x) (key y)); [reflexivity|].
  rewrite IH. apply perm_swap.
Qed.

Lemma Forall_insert (P : A -> Prop) (x : A) (l : list A) :
  P x -> Forall P l -> Forall P (insert key x l).
Proof.
  intros Hx Hl.
  apply (Permutation_Forall (Permutation_sym (insert_Permutation x l))).
  now constructor.
Qed.

Lemma fold_insert_Permutation (l acc : list A) :
  Permutation (fold_left (fun sorted x => insert key x sorted) l acc)
              (acc ++ l).
Proof.
  revert acc; induction l as [|x l IH]; intros acc; simpl.
  - now rewrite app_nil_r.
  - rewrite IH, insert_Permutation.
    change (Permutation ((x :: acc) ++ l) (acc ++ x :: l)).
    apply Permutation_middle.
Qed.

Lemma sort_ascending_Permutation (l : list A) :
  Permutation (sort_ascending key l) l.
Proof. apply (fold_insert_Permutation l []). Qed.

Lemma sort_reverse_Permutation (l : list A) :
  Permutation (sort_reverse key l) l.
Proof.
  unfold sort_reverse.
  rewrite <- Permutation_rev, sort_ascending_Permutation.
  symmetry. apply Permutation_rev.
Qed.

Lemma ascending_refl (y : A) : ascending key y y.
Proof. apply float_lt_irrefl. Qed.

Lemma insert_sorted (x : A) (l : list A) :
  float_is_nan (key x) = false ->
  Forall (fun a => float_is_nan (key a) = false) l ->
  StronglySorted (ascending key) l ->
  StronglySorted (ascending key) (insert key x l).
Proof.
  intros Hx Hl Hs. induction Hs as [|y l Hs IH Hy]; simpl.
  - repeat constructor.
  - inversion Hl as [|? ? Hny Hnl]; subst.
    destruct (float_lt (key x) (key y)) eqn:Hlt.
    + constructor; [now constructor|].
      constructor; [now apply float_lt_asym|].
      rewrite Forall_forall in *. intros z Hz. unfold ascending.
      apply float_lt_asym, (float_lt_not_lt_trans _ (key y)); auto.
      now apply Hy.
    + constructor; [now apply IH|]. now apply Forall_insert.
Qed.

Lemma fold_insert_sorted (l acc : list A) :
  Forall (fun a => float_is_nan (key a) = false) l ->
  Forall (fun a => float_is_nan (key a) = false) acc ->
  StronglySorted (ascending key) acc ->
  StronglySorted (ascending key)
    (fold_left (fun sorted x => insert key x sorted) l acc).
Proof.
  revert acc; induction l as [|x l IH]; intros acc Hl Hacc Hs; simpl;
    trivial.
  inversion Hl; subst. apply IH; trivial.
  - now apply Forall_insert.
  - now apply insert_sorted.
Qed.

(** Insertion puts [x] behind the elements whose key equals its own. *)
Lemma insert_filter (w : float) (x : A) (l : list A) :
  StronglySorted (ascending key) l ->
  filter (same_key key w) (insert key x l) =
  filter (same_key key w) l ++ filter (same_key key w) [x].
Proof.
  intros Hs. induction Hs as [|y l Hs IH Hy]; [reflexivity|].
  cbn [insert]. destruct (float_lt (key x) (key y)) eqn:Hlt.
  - cbn [filter]. destruct (same_key key w x) eqn:Hx;
      [|now rewrite app_nil_r].
    assert (Hnone : filter (same_key key w) (y :: l) = []).
    { apply filter_none.
      assert (Hall : Forall (ascending key y) (y :: l))
        by (constructor; [apply ascending_refl|trivial]).
      rewrite Forall_forall in Hall. intros z Hz. unfold same_key in *.
      destruct (float_is_nan (key z)) eqn:Hnan.
      - destruct (key z); try discriminate. apply float_eq_nan.
      - apply (float_eq_lt_differ (key x)); trivial.
        apply (float_lt_not_lt_trans _ (key y)); trivial.
        now apply Hall. }
    cbn [filter] in Hnone. rewrite Hnone. reflexivity.
  - cbn [filter]. rewrite IH. cbn [filter].
    destruct (same_key key w y); reflexivity.
Qed.

Lemma fold_insert_filter (w : float) (l acc : list A) :
  Forall (fun a => float_is_nan (key a) = false) l ->
  Forall (fun a => float_is_nan (key a) = false) acc ->
  StronglySorted (ascending key) acc ->
  filter (same_key key w)
    (fold_left (fun sorted x => insert key x sorted) l acc) =
  filter (same_key key w) acc ++ filter (same_key key w) l.
Proof.
  revert acc; induction l as [|x l IH]; intros acc Hl Hacc Hs; simpl.
  - now rewrite app_nil_r.
  - inversion Hl; subst. rewrite IH; trivial.
    + rewrite insert_filter, <- app_assoc by trivial. cbn [filter].
      now destruct (same_key key w x).
    + now apply Forall_insert.
    + now apply insert_sorted.
Qed.

Lemma StronglySorted_app (R : A -> A -> Prop) (l1 l2 : list A) :
  StronglySorted R l1 -> StronglySorted R l2 ->
  (forall a b, In a l1 -> In b l2 -> R a b) ->
  StronglySorted R (l1 ++ l2).
Proof.
  intros H1 H2 H. induction H1 as [|a l1 H1 IH Ha]; simpl; trivial.
  constructor.
  - apply IH. intros a' b Ha' Hb. apply H; trivial. now right.
  - apply Forall_app. split; trivial.
    rewrite Forall_forall. intros b Hb. apply H; trivial. now left.
Qed.

Lemma StronglySorted_rev (R : A -> A -> Prop) (l : list A) :
  StronglySorted R l -> StronglySorted (fun a b => R b a) (rev l).
Proof.
  induction 1 as [|a l Hs IH Ha]; simpl; [constructor|].
  apply StronglySorted_app; trivial.
  - repeat constructor.
  - intros x y Hx [<-|[]]. rewrite Forall_forall in Ha.
    apply Ha. now apply in_rev.
Qed.

Lemma StronglySorted_nth_error (R : A -> A -> Prop) (l : list A) :
  StronglySorted R l ->
  forall i j a b,
    (i < j)%nat -> nth_error l i = Some a -> nth_error l j = Some b ->
    R a b.
Proof.
  induction 1 as [|x l Hs IH Hx]; intros i j a b Hij Hi Hj.
  - now destruct i.
  - destruct j as [|j]; [lia|]. simpl in Hj. destruct i as [|i].
    + simpl in Hi. inversion Hi; subst.
      rewrite Forall_forall in Hx. apply Hx.
      now apply nth_error_In with j.
    + simpl in Hi. apply (IH i j); trivial. lia.
Qed.

(** [sort_reverse] without NaN keys: no key is below a later one, and the
    elements of equal key keep the order they had. *)
Lemma sort_reverse_descending (l : list A) :
  Forall (fun a => float_is_nan (key a) = false) l ->
  StronglySorted (fun a b => float_lt (key a) (key b) = false)
    (sort_reverse key l).
Proof.
  intros Hl. unfold sort_reverse.
  apply (StronglySorted_rev (ascending key)).
  apply fold_insert_sorted; try constructor.
  now apply Forall_rev.
Qed.

Lemma sort_reverse_stable (w : float) (l : list A) :
  Forall (fun a => float_is_nan (key a) = false) l ->
  filter (same_key key w) (sort_reverse key l) = filter (same_key key w) l.
Proof.
  intros Hl. unfold sort_reverse, sort_ascending.
  rewrite filter_rev, fold_insert_filter; try constructor.
  - simpl. rewrite filter_rev. apply rev_involutive.
  - now apply Forall_rev.
Qed.

(** A list without NaN keys has one descending arrangement that keeps the
    elements of equal key in order: every stable sort returns it. *)
Lemma descending_stable_unique (l1 l2 : list A) :
  Forall (fun a => float_is_nan (key a) = false) l1 ->
  Forall (fun a => float_is_nan (key a) = false) l2 ->
  StronglySorted (fun a b => float_lt (key a) (key b) = false) l1 ->
  StronglySorted (fun a b => float_lt (key a) (key b) = false) l2 ->
  (forall w, filter (same_key key w) l1 = filter (same_key key w) l2) ->
  l1 = l2.
Proof.
  intros Hn1; revert l2.
  induction Hn1 as [|a l1 Ha Hn1 IH]; intros l2 Hn2 Hs1 Hs2 Hf.
  - destruct l2 as [|b l2]; trivial. inversion Hn2; subst.
    specialize (Hf (key b)). cbn [filter] in Hf. unfold same_key in Hf at 1.
    rewrite float_eq_refl in Hf by trivial. discriminate.
  - assert (Haa : same_key key (key a) a = true)
      by now apply float_eq_refl.
    destruct l2 as [|b l2].
    { specialize (Hf (key a)). cbn [filter] in Hf. rewrite Haa in Hf.
      discriminate. }
    inversion Hn2 as [|? ? Hb Hn2']; subst.
    inversion Hs1 as [|? ? Hs1' Hd1]; subst.
    inversion Hs2 as [|? ? Hs2' Hd2]; subst.
    assert (Hbb : same_key key (key b) b = true)
      by now apply float_eq_refl.
    assert (Hba : float_lt (key b) (key a) = false).
    { assert (Hin : In a (filter (same_key key (key a)) (b :: l2))).
      { rewrite <- Hf. cbn [filter]. rewrite Haa. now left. }
      apply filter_In in Hin. destruct Hin as [[<-|Hin] _].
      - apply float_lt_irrefl.
      - rewrite Forall_forall in Hd2. now apply Hd2. }
    assert (Hab : float_lt (key a) (key b) = false).
    { assert (Hin : In b (filter (same_key key (key b)) (a :: l1))).
      { rewrite Hf. cbn [filter]. rewrite Hbb. now left. }
      apply filter_In in Hin. destruct Hin as [[<-|Hin] _].
      - apply float_lt_irrefl.
      - rewrite Forall_forall in Hd1. now apply Hd1. }
    assert (Heq : same_key key (key a) b = true)
      by (unfold same_key; now apply float_not_lt_eq).
    assert (a = b).
    { specialize (Hf (key a)). cbn [filter] in Hf.
      rewrite Haa, Heq in Hf. now inversion Hf. }
    subst b. f_equal. apply IH; trivial.
    intros w. specialize (Hf w). cbn [filter] in Hf.
    destruct (same_key key w a); [now inversion Hf|trivial].
Qed.

Lemma sort_reverse_unique (l l' : list A) :
  Forall (fun a => float_is_nan (key a) = false) l ->
  Forall (fun a => float_is_nan (key a) = false) l' ->
  StronglySorted (fun a b => float_lt (key a) (key b) = false) l' ->
  (forall w, filter (same_key key w) l' = filter (same_key key w) l) ->
  l' = sort_reverse key l.
Proof.
  intros Hl Hl' Hs Hf. apply descending_stable_unique; trivial.
  - apply (Permutation_Forall
             (Permutation_sym (sort_reverse_Permutation l))), Hl.
  - now apply sort_reverse_descending.
  - intros w. now rewrite Hf, sort_reverse_stable.
Qed.

End SortFacts.

(** ** Names, order and state *)

Lemma entry_for_Ok_name (item : dict) (oe : option entry) :
  entry_for item = Ok oe ->
  (usable_name item = true /\ exists e, oe = Some e /\ e_name e <> [])
  \/ (usable_name item = false /\ oe = None).
Proof.
  unfold entry_for, name_of, usable_name.
  destruct (dict_get item (lit "asset_name") (VStr [])); simpl;
    try discriminate.
  destruct (isin_val item) as [i|x]; simpl; [|discriminate].
  destruct (ticker_val item) as [t|x]; simpl; [|discriminate].
  destruct (str_strip s) as [|c n] eqn:En; simpl.
  - intros H; inversion H. now right.
  - destruct (weight_of item) as [w|x]; simpl; [|discriminate].
    intros H; inversion H. left. split; trivial.
    eexists. split; [reflexivity|]. simpl. discriminate.
Qed.

Lemma entries_names (items : list dict) (es : list entry) :
  entries items = Ok es ->
  Forall (fun e => e_name e <> []) es /\
  List.length es = List.length (filter usable_name items) /\
  (forall item, In item items -> usable_name item = false ->
                entry_for item = Ok None).
Proof.
  revert es; induction items as [|item rest IH]; simpl; intros es H.
  - inversion H. repeat split; trivial. intros ? [].
  - destruct (entry_for item) as [oe|x] eqn:He; simpl in H; [|discriminate].
    destruct (entries rest) as [es'|x]; simpl in H; [|discriminate].
    destruct (IH es' eq_refl) as (Hn & Hlen & Hdrop).
    inversion H; subst; clear H.
    destruct (entry_for_Ok_name _ _ He) as [(Hu & e & -> & Hne)|(Hu & ->)];
      rewrite Hu; simpl; repeat split; auto.
    + intros it [<-|Hin] Hit; [congruence|auto].
    + intros it [<-|Hin] Hit; auto.
Qed.

(** X21: whenever step 4 returns a report, every entry of it has a name
    that is not empty, each record without a usable name went through the
    [continue] of line 103 (it added no entry and raised nothing), and
    [totalCount], the length of [holdings], is the number of records with
    a usable name. *)
Theorem nameless_records_dropped
  (cb : value) (items : list dict) (rep : report) :
  normalize cb items = Ok rep ->
  Forall (fun e => e_name e <> []) (r_holdings rep) /\
  (forall item, In item items -> usable_name item = false ->
                entry_for item = Ok None) /\
  r_totalCount rep = Z.of_nat (List.length (r_holdings rep)) /\
  List.length (r_holdings rep) = List.length (filter usable_name items).
Proof.
  intros H. apply normalize_Ok_inv in H. destruct H as (es & Hes & ->).
  destruct (entries_names _ _ Hes) as (Hn & Hlen & Hdrop). simpl.
  repeat split; trivial.
  - apply (Permutation_Forall
             (Permutation_sym (sort_reverse_Permutation e_weight es))), Hn.
  - rewrite (Permutation_length (sort_reverse_Permutation e_weight es)).
    exact Hlen.
Qed.

Lemma nameless_records_dropped_witness :
  let items := [[(lit "asset_name", json_str "Apple Inc");
                 (lit "weight.numeric", json_dec 71234 (-6))];
                [(lit "asset_name", json_str "  ");
                 (lit "weight.numeric", json_dec 5 (-2))];
                [(lit "weight.rounded", json_dec 50 (-1))]] in
  let rep := {| r_holdings :=
                  [{| e_name := lit "Apple Inc";
                      e_weight := float_of_decimal false 712 (-2);
                      e_isin := None; e_ticker := None |}];
                r_cbondsId := VInt 1807;
                r_totalCount := 1;
                r_availableFields :=
                  [lit "asset_name"; lit "weight.numeric"] |} in
  Forall (fun e => e_name e <> []) (r_holdings rep) /\
  (forall item, In item items -> usable_name item = false ->
                entry_for item = Ok None) /\
  r_totalCount rep = Z.of_nat (List.length (r_holdings rep)) /\
  List.length (r_holdings rep) = List.length (filter usable_name items).
Proof.
  cbv zeta. apply (nameless_records_dropped (VInt 1807)).
  vm_compute. reflexivity.
Defined.

(** C4, as stated, fails when a weight is a NaN (which [json.loads] reads
    from the literal [NaN], and [float] from the string ["nan"]): a NaN is
    neither above nor below any weight, in whatever order the list is. *)
Lemma nan_weight_counterexample :
  exists rep a b,
    normalize VNone [[(lit "asset_name", json_str "A");
                      (lit "weight.rounded", VFloat S754_nan)];
                     [(lit "asset_name", json_str "B");
                      (lit "weight.rounded", json_dec 10 (-1))]] = Ok rep /\
    nth_error (r_holdings rep) 0 = Some a /\
    nth_error (r_holdings rep) 1 = Some b /\
    float_ge (e_weight a) (e_weight b) = false.
Proof.
  do 3 eexists. split; [vm_compute; reflexivity|].
  split; [reflexivity|]. split; reflexivity.
Qed.

(** C4, amended: when no weight in the report is a NaN, an entry's weight
    is greater than or equal to the weight of every later entry, and for
    each weight [w] the entries whose weight equals [w] stand in the
    report in the order in which the loop produced them, which is the
    order of their records. *)
Theorem holdings_sorted_descending_stable
  (cb : value) (items : list dict) (rep : report) :
  normalize cb items = Ok rep ->
  Forall (fun e => float_is_nan (e_weight e) = false) (r_holdings rep) ->
  (forall i j a b,
      (i < j)%nat ->
      nth_error (r_holdings rep) i = Some a ->
      nth_error (r_holdings rep) j = Some b ->
      float_ge (e_weight a) (e_weight b) = true)
  /\
  (exists es,
      entries items = Ok es /\
      forall w, filter (same_key e_weight w) (r_holdings rep)
                = filter (same_key e_weight w) es).
Proof.
  intros H Hnan. apply normalize_Ok_inv in H. destruct H as (es & Hes & ->).
  simpl in *.
  assert (Hnan' : Forall (fun e => float_is_nan (e_weight e) = false) es)
    by apply (Permutation_Forall (sort_reverse_Permutation e_weight es)),
       Hnan.
  split.
  - intros i j a b Hij Ha Hb.
    assert (Hab : float_lt (e_weight a) (e_weight b) = false)
      by apply (StronglySorted_nth_error _ _
                  (sort_reverse_descending e_weight es Hnan') i j a b
                  Hij Ha Hb).
    rewrite Forall_forall in Hnan.
    apply float_not_lt_ge; trivial; apply Hnan;
      eapply nth_error_In; eassumption.
  - exists es. split; trivial. intros w.
    now apply sort_reverse_stable.
Qed.

Lemma holdings_sorted_descending_stable_witness :
  let items := [[(lit "asset_name", json_str "A");
                 (lit "weight.rounded", json_dec 10 (-1))];
                [(lit "asset_name", json_str "B");
                 (lit "weight.rounded", json_dec 30 (-1))];
                [(lit "asset_name", json_str "C");
                 (lit "weight.rounded", VInt 1)]] in
  let entry n w := {| e_name := lit n; e_weight := float_of_decimal false w 0;
                      e_isin := None; e_ticker := None |} in
  let rep := {| r_holdings := [entry "B"%string 3; entry "A"%string 1;
                               entry "C"%string 1];
                r_cbondsId := VNone;
                r_totalCount := 3;
                r_availableFields :=
                  [lit "asset_name"; lit "weight.rounded"] |} in
  (forall i j a b,
      (i < j)%nat ->
      nth_error (r_holdings rep) i = Some a ->
      nth_error (r_holdings rep) j = Some b ->
      float_ge (e_weight a) (e_weight b) = true)
  /\
  (exists es,
      entries items = Ok es /\
      forall w, filter (same_key e_weight w) (r_holdings rep)
                = filter (same_key e_weight w) es).
Proof.
  cbv zeta. apply (holdings_sorted_descending_stable VNone).
  - vm_compute. reflexivity.
  - repeat constructor.
Defined.

(** C8: the report depends on [structure] (and [cbonds_id]) alone: what
    the frame held before is of no account, the run leaves [structure] as
    it found it, and a second run on the frame left by the first returns
    the same report. *)
Theorem step4_no_hidden_state :
  (forall fr1 fr2,
      cbonds_id fr1 = cbonds_id fr2 -> structure fr1 = structure fr2 ->
      step4 fr1 = step4 fr2)
  /\
  (forall fr rep fr',
      step4 fr = Ok (rep, fr') ->
      structure fr' = structure fr /\ cbonds_id fr' = cbonds_id fr /\
      step4 fr' = Ok (rep, fr'))
  /\
  (forall fr,
      (r <- step4 fr ;; Ok (fst r))
      = normalize (cbonds_id fr) (structure fr)).
Proof.
  assert (Hdep : forall fr1 fr2,
             cbonds_id fr1 = cbonds_id fr2 ->
             structure fr1 = structure fr2 -> step4 fr1 = step4 fr2).
  { intros fr1 fr2 Hc Hs. rewrite !step4_entries.
    unfold set_holdings. now rewrite Hc, Hs. }
  split; [exact Hdep|]. split.
  - intros fr rep fr' H.
    assert (Hfr : structure fr' = structure fr /\
                  cbonds_id fr' = cbonds_id fr).
    { rewrite step4_entries in H.
      destruct (entries (structure fr)); simpl in H; [|discriminate].
      inversion H; subst. now split. }
    destruct Hfr as [Hs Hc]. repeat split; trivial.
    now rewrite (Hdep fr' fr Hc Hs).
  - intros fr. rewrite step4_entries, normalize_entries.
    now destruct (entries (structure fr)).
Qed.

Lemma step4_no_hidden_state_witness :
  let e := {| e_name := lit "A"; e_weight := float_of_decimal false 25 0;
              e_isin := None; e_ticker := None |} in
  let items := [[(lit "asset_name", json_str "A");
                 (lit "weight.numeric", json_dec 25 (-2))]] in
  let stale := [{| e_name := lit "old"; e_weight := float_0;
                   e_isin := None; e_ticker := None |}] in
  let before := {| cbonds_id := VInt 1807; structure := items;
                   holdings := stale |} in
  let after := {| cbonds_id := VInt 1807; structure := items;
                  holdings := [e] |} in
  let rep := {| r_holdings := [e]; r_cbondsId := VInt 1807;
                r_totalCount := 1;
                r_availableFields :=
                  [lit "asset_name"; lit "weight.numeric"] |} in
  step4 before = step4 after /\
  (structure after = structure before /\
   cbonds_id after = cbonds_id before /\
   step4 after = Ok (rep, after)).
Proof.
  cbv zeta. split.
  - apply (proj1 step4_no_hidden_state); reflexivity.
  - apply (proj1 (proj2 step4_no_hidden_state)).
    vm_compute. reflexivity.
Defined.

(** ** The regular expression of step 3 *)

Import Re.

Section MatcherFacts.
Context {A : Type}.

Lemma many_lstrip (cs : charset) (s : str) (k : str -> option A) :
  (forall c s', in_charset cs c = true -> k (c :: s') = None) ->
  many cs s k = k (lstrip (in_charset cs) s).
Proof.
  intros Hk. induction s as [|c s IH]; simpl; trivial.
  destruct (in_charset cs c) eqn:Hc; trivial.
  rewrite IH. destruct (k (lstrip (in_charset cs) s)); trivial.
  now apply Hk.
Qed.

Lemma many_sound (cs : charset) (s : str) (k : str -> option A) (a : A) :
  many cs s k = Some a ->
  exists w s', s = w ++ s' /\ forallb (in_charset cs) w = true /\
               k s' = Some a.
Proof.
  revert a; induction s as [|c s IH]; simpl; intros a H.
  - now exists [], [].
  - destruct (in_charset cs c) eqn:Hc; [|now exists [], (c :: s)].
    destruct (many cs s k) as [a'|] eqn:Hm.
    + inversion H; subst. destruct (IH a eq_refl) as (w & s' & -> & Hw & Hk).
      exists (c :: w), s'. simpl. now rewrite Hc.
    + now exists [], (c :: s).
Qed.

Lemma many_complete (cs : charset) (w s' : str) (k : str -> option A) :
  forallb (in_charset cs) w = true -> k s' <> None ->
  many cs (w ++ s') k <> None.
Proof.
  induction w as [|c w IH]; simpl; intros Hw Hk.
  - destruct s' as [|c s']; simpl; trivial.
    destruct (in_charset cs c); trivial.
    destruct (many cs s' k); [discriminate|trivial].
  - apply andb_true_iff in Hw. destruct Hw as [Hc Hw]. rewrite Hc.
    specialize (IH Hw Hk). destruct (many cs (w ++ s') k); [discriminate|].
    contradiction.
Qed.

Lemma few_sound (cs : charset) (s : str) (k : str -> option A) (a : A) :
  few cs s k = Some a ->
  exists w s', s = w ++ s' /\ forallb (in_charset cs) w = true /\
               k s' = Some a /\
               (forall w1 w2, w = w1 ++ w2 -> w2 <> [] ->
                              k (w2 ++ s') = None).
Proof.
  revert a; induction s as [|c s IH]; intros a H.
  - simpl in H. destruct (k []) eqn:Hk; [|discriminate]. inversion H; subst.
    exists [], []. repeat split; trivial.
    intros w1 w2 Hw. now destruct w1, w2.
  - cbn [few] in H. destruct (k (c :: s)) eqn:Hk.
    + inversion H; subst. exists [], (c :: s). repeat split; trivial.
      intros w1 w2 Hw. now destruct w1, w2.
    + destruct (in_charset cs c) eqn:Hc; [|discriminate].
      destruct (IH a H) as (w & s' & -> & Hw & Hks & Hmin).
      exists (c :: w), s'. simpl. rewrite Hc. repeat split; trivial.
      intros w1 w2 Hw12 Hne. destruct w1 as [|c1 w1]; simpl in Hw12.
      * now subst w2.
      * inversion Hw12; subst. now apply (Hmin w1).
Qed.

Lemma few_complete (cs : charset) (w s' : str) (k : str -> option A) (a : A) :
  forallb (in_charset cs) w = true -> k s' = Some a ->
  (forall w1 w2, w = w1 ++ w2 -> w2 <> [] -> k (w2 ++ s') = None) ->
  few cs (w ++ s') k = Some a.
Proof.
  induction w as [|c w IH]; intros Hw Hk Hmin.
  - simpl. destruct s'; simpl; now rewrite Hk.
  - simpl in Hw. apply andb_true_iff in Hw. destruct Hw as [Hc Hw].
    assert (H0 : k (c :: w ++ s') = None)
      by (apply (Hmin [] (c :: w)); [reflexivity|discriminate]).
    cbn [few app]. rewrite H0, Hc. apply IH; trivial.
    intros w1 w2 Hw12 Hne. apply (Hmin (c :: w1)); trivial.
    simpl. now rewrite Hw12.
Qed.

Lemma few_some (cs : charset) (w s' : str) (k : str -> option A) :
  forallb (in_charset cs) w = true -> k s' <> None ->
  few cs (w ++ s') k <> None.
Proof.
  induction w as [|c w IH]; intros Hw Hk.
  - simpl. destruct s'; simpl; destruct (k _); congruence.
  - simpl in Hw. apply andb_true_iff in Hw. destruct Hw as [Hc Hw].
    cbn [few app]. destruct (k (c :: w ++ s')); [discriminate|].
    rewrite Hc. now apply IH.
Qed.

Lemma run_text (t : str) (r : regex) (s' : str) (g : option str)
  (k : str -> option str -> option A) :
  run (text t r) (t ++ s') g k = run r s' g k.
Proof.
  induction t as [|c t IH]; simpl; trivial. now rewrite Z.eqb_refl.
Qed.

Lemma run_text_inv (t : str) (r : regex) (s : str) (g : option str)
  (k : str -> option str -> option A) (a : A) :
  run (text t r) s g k = Some a ->
  exists s', s = t ++ s' /\ run r s' g k = Some a.
Proof.
  revert s; induction t as [|c t IH]; simpl; intros s H.
  - now exists s.
  - destruct s as [|x s]; [discriminate|].
    destruct (x =? c) eqn:E; [|discriminate]. apply Z.eqb_eq in E. subst x.
    destruct (IH _ H) as (s' & -> & Hr). now exists s'.
Qed.

End MatcherFacts.

Lemma space_not_char (c x : Z) :
  unicode_isspace x = false -> unicode_isspace c = true -> (c =? x) = false.
Proof.
  intros Hx Hc. destruct (c =? x) eqn:E; trivial.
  apply Z.eqb_eq in E. congruence.
Qed.

Lemma lstrip_spaces (sp : Z -> bool) (ws s : str) :
  forallb sp ws = true ->
  lstrip sp (ws ++ s) = lstrip sp s.
Proof.
  induction ws as [|c ws IH]; simpl; trivial.
  intros H. apply andb_true_iff in H. destruct H as [-> H]. now apply IH.
Qed.

Lemma firstn_consumed {B : Type} (w s' : list B) :
  firstn (List.length (w ++ s') - List.length s') (w ++ s') = w.
Proof.
  rewrite length_app, Nat.add_sub. 
  rewrite firstn_app, Nat.sub_diag, firstn_all. simpl. apply app_nil_r.
Qed.

Lemma run_after_group (s : str) (g og : option str) :
  run after_group s g (fun _ g' => Some g') = Some og <->
  og = g /\ exists ws t post,
    s = ws ++ t :: post /\ all_space ws = true /\ (t = 44 \/ t = 59).
Proof.
  unfold after_group. cbn [run]. split.
  - intros H. apply many_sound in H.
    destruct H as (ws & s' & -> & Hws & H).
    destruct s' as [|t post]; [discriminate|]. simpl in H.
    destruct ((t =? 44) || (t =? 59)) eqn:Ht; [|discriminate].
    inversion H; subst. split; trivial. exists ws, t, post.
    repeat split; trivial. apply orb_true_iff in Ht. lia.
  - intros (-> & ws & t & post & -> & Hws & Ht).
    rewrite many_lstrip.
    + change (in_charset Space) with unicode_isspace.
      rewrite lstrip_spaces by exact Hws.
      assert (Hsp : unicode_isspace t = false) by (destruct Ht; now subst).
      simpl. rewrite Hsp. simpl.
      replace ((t =? 44) || (t =? 59)) with true; trivial.
      symmetry. apply orb_true_iff. lia.
    + intros c s' Hc. simpl in *.
      now rewrite !space_not_char.
Qed.

Lemma any_char (w : str) : forallb (in_charset (Union Space NotSpace)) w = true.
Proof.
  induction w as [|c w IH]; trivial. cbn [forallb]. rewrite IH.
  simpl. now destruct (unicode_isspace c).
Qed.

Lemma close_group_closes (u s : str) :
  close_group u s <> None <-> closes s.
Proof.
  unfold close_group, closes. split.
  - destruct s as [|c s]; [simpl; congruence|]. cbn [run in_charset].
    destruct (c =? 93) eqn:E; [|congruence]. apply Z.eqb_eq in E. subst c.
    match goal with
    | |- context [run after_group s ?g ?k] =>
        destruct (run after_group s g k) as [og|] eqn:H; [|congruence]
    end.
    intros _. apply run_after_group in H.
    destruct H as (_ & ws & t & post & -> & Hws & Ht).
    now exists ws, t, post.
  - intros (ws & t & post & -> & Hws & Ht). cbn [run in_charset].
    rewrite Z.eqb_refl.
    match goal with
    | |- run after_group ?s0 ?g ?k <> None =>
        rewrite (proj2 (run_after_group s0 g g)); [discriminate|]
    end.
    split; [reflexivity|]. now exists ws, t, post.
Qed.

Lemma close_group_value (u s : str) (og : option str) :
  close_group u s = Some og ->
  exists s', s = 93 :: s' /\
             og = Some (firstn (List.length u - List.length s') u).
Proof.
  unfold close_group. destruct s as [|c s]; [discriminate|].
  cbn [run in_charset]. destruct (c =? 93) eqn:E; [|discriminate].
  apply Z.eqb_eq in E. subst c. intros H. apply run_after_group in H.
  destruct H as (-> & _). now exists s.
Qed.

Lemma run_group_1 (u : str) :
  run group_1 u None (fun s' g' => run after_group s' g' (fun _ g => Some g))
  = match u with
    | [] => None
    | c :: u' => if c =? 91
                 then few (Union Space NotSpace) u' (close_group u)
                 else None
    end.
Proof. destruct u as [|c u']; reflexivity. Qed.

Lemma re_match_assignment (s : str) (og : option str) :
  re_match assignment_pattern s = Some og <->
  exists g, og = Some g /\ assigns_shortest s g.
Proof.
  unfold re_match, assignment_pattern. split.
  - intros H. apply run_text_inv in H. destruct H as (u1 & -> & H).
    cbn [run] in H. apply many_sound in H.
    destruct H as (ws1 & u2 & -> & Hws1 & H).
    destruct u2 as [|sep u3]; [discriminate|].
    destruct (in_charset (Union (One 58) (One 61)) sep) eqn:Hsep;
      [|discriminate].
    apply many_sound in H. destruct H as (ws2 & u4 & -> & Hws2 & H).
    change (run group_1 u4 None
              (fun s' g' => run after_group s' g' (fun _ g => Some g))
            = Some og) in H.
    rewrite run_group_1 in H.
    destruct u4 as [|b u5]; [discriminate|].
    destruct (b =? 91) eqn:Hb; [|discriminate].
    apply Z.eqb_eq in Hb. subst b.
    apply few_sound in H. destruct H as (body & rest & -> & _ & Hk & Hmin).
    destruct (close_group_value _ _ _ Hk) as (u7 & -> & ->).
    exists (91 :: body ++ [93]). split.
    + f_equal.
      replace (91 :: body ++ 93 :: u7) with ((91 :: body ++ [93]) ++ u7)
        by (simpl; now rewrite <- app_assoc).
      apply firstn_consumed.
    + exists ws1, sep, ws2, body, (93 :: u7). repeat split; trivial.
      * simpl in Hsep. apply orb_true_iff in Hsep. lia.
      * apply (close_group_closes (91 :: body ++ 93 :: u7)). congruence.
      * intros b1 b2 Hb Hne Hc.
        apply (close_group_closes (91 :: body ++ 93 :: u7)) in Hc.
        now rewrite (Hmin b1 b2 Hb Hne) in Hc.
  - intros (g & -> & ws1 & sep & ws2 & body & rest & -> & -> & Hws1 & Hsep
            & Hws2 & Hc & Hmin).
    rewrite run_text. cbn [run].
    assert (Hsp : unicode_isspace sep = false) by (destruct Hsep; now subst).
    rewrite many_lstrip.
    2:{ intros c s' Hc'. simpl in *. now rewrite !space_not_char. }
    change (in_charset Space) with unicode_isspace.
    rewrite lstrip_spaces by exact Hws1. simpl lstrip. rewrite Hsp.
    replace (in_charset (Union (One 58) (One 61)) sep) with true
      by (symmetry; simpl; apply orb_true_iff; lia).
    rewrite many_lstrip.
    2:{ intros c s' Hc'. simpl in *. now rewrite !space_not_char. }
    change (in_charset Space) with unicode_isspace.
    rewrite lstrip_spaces by exact Hws2. simpl lstrip.
    change (run group_1 (91 :: body ++ rest) None
              (fun s' g' => run after_group s' g' (fun _ g => Some g))
            = Some (Some (91 :: body ++ [93]))).
    rewrite run_group_1. simpl (91 =? 91).
    cbv iota.
    destruct (close_group (91 :: body ++ rest) rest) as [og|] eqn:Hk.
    2:{ now apply (close_group_closes (91 :: body ++ rest)) in Hc. }
    destruct (close_group_value _ _ _ Hk) as (u7 & -> & ->).
    replace (Some (Some (91 :: body ++ [93])))
      with (Some (Some (firstn
                (List.length (91 :: body ++ 93 :: u7) - List.length u7)
                (91 :: body ++ 93 :: u7)))).
    2:{ do 2 f_equal.
        replace (91 :: body ++ 93 :: u7) with ((91 :: body ++ [93]) ++ u7)
          by (simpl; now rewrite <- app_assoc).
        apply firstn_consumed. }
    apply few_complete; trivial; [apply any_char|].
    intros b1 b2 Hb Hne.
    destruct (close_group (91 :: body ++ 93 :: u7) (b2 ++ 93 :: u7)) eqn:E;
      trivial.
    exfalso. apply (Hmin b1 b2 Hb Hne).
    apply (close_group_closes (91 :: body ++ 93 :: u7)). congruence.
Qed.

Lemma re_match_assignment_some (s g : str) :
  assigns s g -> re_match assignment_pattern s <> None.
Proof.
  intros (ws1 & sep & ws2 & body & rest & -> & -> & Hws1 & Hsep & Hws2 & Hc).
  unfold re_match, assignment_pattern. rewrite run_text. cbn [run].
  assert (Hsp : unicode_isspace sep = false) by (destruct Hsep; now subst).
  rewrite many_lstrip.
  2:{ intros c s' Hc'. simpl in *. now rewrite !space_not_char. }
  change (in_charset Space) with unicode_isspace.
  rewrite lstrip_spaces by exact Hws1. simpl lstrip. rewrite Hsp.
  replace (in_charset (Union (One 58) (One 61)) sep) with true
    by (symmetry; simpl; apply orb_true_iff; lia).
  rewrite many_lstrip.
  2:{ intros c s' Hc'. simpl in *. now rewrite !space_not_char. }
  change (in_charset Space) with unicode_isspace.
  rewrite lstrip_spaces by exact Hws2. simpl lstrip.
  change (run group_1 (91 :: body ++ rest) None
            (fun s' g' => run after_group s' g' (fun _ g => Some g))
          <> None).
  rewrite run_group_1. simpl (91 =? 91). cbv iota.
  apply few_some; [apply any_char|].
  now apply close_group_closes.
Qed.

Lemma assigns_shortest_assigns (s g : str) :
  assigns_shortest s g -> assigns s g.
Proof.
  intros (ws1 & sep & ws2 & body & rest & H1 & H2 & H3 & H4 & H5 & H6 & _).
  now exists ws1, sep, ws2, body, rest.
Qed.

Lemma re_match_assignment_None (s : str) :
  re_match assignment_pattern s = None <-> forall g, ~ assigns s g.
Proof.
  split.
  - intros H g Hg. now apply (re_match_assignment_some s g).
  - intros H. destruct (re_match assignment_pattern s) as [og|] eqn:E;
      trivial.
    apply re_match_assignment in E. destruct E as (g & _ & Hg).
    destruct (H g). now apply assigns_shortest_assigns.
Qed.

Lemma re_search_Some (r : regex) (s : str) (og : option str) :
  re_search r s = Some og <->
  exists pre s',
    s = pre ++ s' /\ re_match r s' = Some og /\
    (forall p1 p2, pre = p1 ++ p2 -> p2 <> [] ->
                   re_match r (p2 ++ s') = None).
Proof.
  split.
  - induction s as [|c s IH]; cbn [re_search].
    + destruct (re_match r []) eqn:E; [|discriminate].
      intros H; inversion H; subst. exists [], []. repeat split; trivial.
      intros p1 p2 Hp. now destruct p1, p2.
    + destruct (re_match r (c :: s)) eqn:E.
      * intros H; inversion H; subst. exists [], (c :: s).
        repeat split; trivial. intros p1 p2 Hp. now destruct p1, p2.
      * intros H. destruct (IH H) as (pre & s' & -> & Hm & Hmin).
        exists (c :: pre), s'. repeat split; trivial.
        intros p1 p2 Hp Hne. destruct p1 as [|x p1]; simpl in Hp.
        -- now subst p2.
        -- inversion Hp; subst. now apply (Hmin p1).
  - intros (pre & s' & -> & Hm & Hmin).
    induction pre as [|c pre IH].
    + simpl. destruct s'; cbn [re_search]; now rewrite Hm.
    + assert (H0 : re_match r (c :: pre ++ s') = None)
        by (apply (Hmin [] (c :: pre)); [reflexivity|discriminate]).
      cbn [re_search app]. rewrite H0. apply IH.
      intros p1 p2 Hp Hne. apply (Hmin (c :: p1)); trivial.
      simpl. now rewrite Hp.
Qed.

Lemma re_search_None (r : regex) (s : str) :
  re_search r s = None <->
  forall pre s', s = pre ++ s' -> re_match r s' = None.
Proof.
  split.
  - induction s as [|c s IH]; cbn [re_search].
    + destruct (re_match r []) eqn:E; [discriminate|].
      intros _ pre s' Hs. symmetry in Hs.
      apply app_eq_nil in Hs. destruct Hs as [_ ->]. exact E.
    + destruct (re_match r (c :: s)) eqn:E; [discriminate|].
      intros H pre s' Hs. destruct pre as [|x pre]; simpl in Hs.
      * now subst s'.
      * inversion Hs; subst. now apply (IH H pre).
  - intros H. induction s as [|c s IH]; cbn [re_search].
    + now rewrite (H [] []).
    + rewrite (H [] (c :: s)) by reflexivity. apply IH.
      intros pre s' ->. now apply (H (c :: pre)).
Qed.

(** *** The optional [var] *)

Lemma re_match_assignment_first (c : Z) (s : str) :
  c <> 115 -> re_match assignment_pattern (c :: s) = None.
Proof.
  intros Hc. unfold re_match, assignment_pattern. simpl.
  now rewrite (proj2 (Z.eqb_neq c 115)).
Qed.

Lemma re_search_assignment_skip (ws s : str) :
  Forall (fun c => c <> 115) ws ->
  re_search assignment_pattern (ws ++ s) = re_search assignment_pattern s.
Proof.
  induction 1 as [|c ws Hc Hws IH]; trivial.
  cbn [app re_search]. now rewrite re_match_assignment_first.
Qed.

Lemma lstrip_split (sp : Z -> bool) (s : str) :
  exists ws, s = ws ++ lstrip sp s /\ forallb sp ws = true.
Proof.
  induction s as [|c s (ws & Hs & Hws)]; simpl.
  - now exists [].
  - destruct (sp c) eqn:Hc.
    + exists (c :: ws). simpl. rewrite Hc. split; trivial. now f_equal.
    + now exists [].
Qed.

Lemma space_not_s (c : Z) : unicode_isspace c = true -> c <> 115.
Proof. intros H ->. discriminate. Qed.

(** The part of the pattern before [structure]: when [var] and white
    space are there, the match goes on behind them. *)
Lemma var_part_Some (s : str) (og : option str) :
  run (text (lit "var") (Many1 Space)) s None
    (fun s' g' => run assignment_pattern s' g' (fun _ g => Some g))
  = Some og ->
  exists c s1,
    s = lit "var" ++ c :: s1 /\ unicode_isspace c = true /\
    re_match assignment_pattern (lstrip unicode_isspace s1) = Some og.
Proof.
  intros H. apply run_text_inv in H. destruct H as (s' & -> & H).
  cbn [run] in H. destruct s' as [|c s1]; [discriminate|].
  cbn [in_charset] in H. destruct (unicode_isspace c) eqn:Hc; [|discriminate].
  rewrite many_lstrip in H.
  - now exists c, s1.
  - intros x s' Hx. apply (re_match_assignment_first x s').
    now apply space_not_s.
Qed.

Lemma re_search_cons (r : regex) (c : Z) (s : str) :
  re_search r (c :: s) =
  match re_match r (c :: s) with
  | Some g => Some g
  | None => re_search r s
  end.
Proof. reflexivity. Qed.

Lemma re_match_structure (s : str) :
  re_match structure_pattern s =
  match run (text (lit "var") (Many1 Space)) s None
          (fun s' g' => run assignment_pattern s' g' (fun _ g => Some g))
  with
  | Some a => Some a
  | None => re_match assignment_pattern s
  end.
Proof. reflexivity. Qed.

Lemma search_ignores_var (html : str) :
  re_search structure_pattern html = re_search assignment_pattern html.
Proof.
  induction html as [|c s IH]; [reflexivity|].
  rewrite (re_search_cons structure_pattern), re_match_structure.
  destruct (run (text (lit "var") (Many1 Space)) (c :: s) None _)
    as [og|] eqn:Hvar.
  - apply var_part_Some in Hvar.
    destruct Hvar as (x & s1 & -> & Hx & Hm).
    destruct (lstrip_split unicode_isspace s1) as (ws & Hs1 & Hws).
    rewrite Hs1 at 1.
    replace (lit "var" ++ x :: ws ++ lstrip unicode_isspace s1)
      with ((lit "var" ++ x :: ws) ++ lstrip unicode_isspace s1)
      by (now rewrite <- app_assoc).
    rewrite re_search_assignment_skip.
    + destruct (lstrip unicode_isspace s1); cbn [re_search];
        now rewrite Hm.
    + apply Forall_app. split.
      * repeat constructor; discriminate.
      * constructor; [now apply space_not_s|].
        rewrite Forall_forall. intros y Hy. apply space_not_s.
        rewrite forallb_forall in Hws. now apply Hws.
  - rewrite re_search_cons, IH.
    now destruct (re_match assignment_pattern (c :: s)).
Qed.

(** X1: the optional [var] at the head of the pattern never changes what
    the search returns: the same pattern without it finds the same group
    in every page. *)
Theorem var_prefix_is_redundant (html : str) :
  re_search structure_pattern html = re_search assignment_pattern html.
Proof. apply search_ignores_var. Qed.

Lemma structure_match_spec (html : str) (og : option str) :
  re_search structure_pattern html = Some og <->
  exists g pre s,
    og = Some g /\ html = pre ++ s /\ assigns_shortest s g /\
    (forall p1 p2 g', pre = p1 ++ p2 -> p2 <> [] ->
                      ~ assigns (p2 ++ s) g').
Proof.
  rewrite search_ignores_var, re_search_Some. split.
  - intros (pre & s & -> & Hm & Hmin).
    apply re_match_assignment in Hm. destruct Hm as (g & -> & Hg).
    exists g, pre, s. repeat split; trivial.
    intros p1 p2 g' Hp Hne. now apply re_match_assignment_None, (Hmin p1).
  - intros (g & pre & s & -> & -> & Hg & Hmin).
    exists pre, s. repeat split.
    + apply re_match_assignment. now exists g.
    + intros p1 p2 Hp Hne. apply re_match_assignment_None.
      intros g'. now apply (Hmin p1).
Qed.

(** X2: [re.search] with the pattern of line 67 returns a match exactly
    for the leftmost place where [structure], a [":"] or ["="] and a
    bracketed text stand, white space allowed between them, and the
    bracket is followed by white space and [","] or [";"]; group 1 runs
    from that ["["] to the first ["]"] that is so followed. *)
Theorem structure_match_characterised (html : str) (og : option str) :
  re_search structure_pattern html = Some og <->
  exists g pre s,
    og = Some g /\ html = pre ++ s /\ assigns_shortest s g /\
    (forall p1 p2 g', pre = p1 ++ p2 -> p2 <> [] ->
                      ~ assigns (p2 ++ s) g').
Proof. apply structure_match_spec. Qed.

Lemma structure_match_characterised_witness :
  exists g pre s,
    Some (lit "[[1]") = Some g /\
    lit "var structure = [[1],[2]];" = pre ++ s /\
    assigns_shortest s g /\
    (forall p1 p2 g', pre = p1 ++ p2 -> p2 <> [] ->
                      ~ assigns (p2 ++ s) g').
Proof.
  apply (proj1 (structure_match_characterised
                  (lit "var structure = [[1],[2]];") (Some (lit "[[1]")))).
  vm_compute. reflexivity.
Defined.

(** X3: the search fails exactly when the page has no such place. *)
Theorem structure_not_found (html : str) :
  re_search structure_pattern html = None <->
  forall pre s g, html = pre ++ s -> ~ assigns s g.
Proof.
  rewrite search_ignores_var, re_search_None. split.
  - intros H pre s g Hs. now apply re_match_assignment_None, (H pre).
  - intros H pre s Hs. apply re_match_assignment_None.
    intros g. now apply (H pre).
Qed.

Lemma structure_not_found_example :
  forall pre s g, lit "structure = [1, 2]" = pre ++ s -> ~ assigns s g.
Proof.
  apply (proj1 (structure_not_found (lit "structure = [1, 2]"))).
  vm_compute. reflexivity.
Defined.

(** X4: group 1 is a bracketed text that nowhere inside has a ["]"]
    followed by white space and [","] or [";"]: an array that holds
    such a place is never extracted whole. *)
Theorem group_stops_at_first_closing (html g : str) :
  re_search structure_pattern html = Some (Some g) ->
  (exists body, g = 91 :: body ++ [93]) /\
  (forall x ws t y,
      all_space ws = true -> t = 44 \/ t = 59 ->
      g <> x ++ 93 :: ws ++ t :: y).
Proof.
  intros H. apply structure_match_spec in H.
  destruct H as (g' & pre & s & Hg & _ & Hs & _). inversion Hg; subst g'.
  destruct Hs as (ws1 & sep & ws2 & body & rest & _ & -> & _ & _ & _ & _
                  & Hmin).
  split; [now exists body|].
  intros x ws t y Hws Ht Heq.
  destruct x as [|c x]; [discriminate|]. simpl in Heq.
  inversion Heq as [[Hc Hb]]. clear Heq.
  assert (Hy : exists y', y = y' ++ [93] /\ body = x ++ 93 :: ws ++ t :: y').
  { destruct (exists_last (l := y)) as (y' & z & ->).
    - intros ->. 
      replace (x ++ 93 :: ws ++ [t]) with ((x ++ 93 :: ws) ++ [t]) in Hb
        by (now rewrite <- app_assoc).
      apply app_inj_tail in Hb. destruct Hb as [_ Hb]. subst t.
      destruct Ht; discriminate.
    - replace (x ++ 93 :: ws ++ t :: y' ++ [z])
        with ((x ++ 93 :: ws ++ t :: y') ++ [z]) in Hb
        by (repeat (rewrite <- app_assoc; simpl); reflexivity).
      apply app_inj_tail in Hb. destruct Hb as [Hb <-]. now exists y'. }
  destruct Hy as (y' & -> & Hbody).
  apply (Hmin x (93 :: ws ++ t :: y') Hbody); [discriminate|].
  exists ws, t, (y' ++ rest). split; [|now split].
  simpl. now rewrite <- app_assoc.
Qed.

Lemma group_stops_at_first_closing_witness :
  (exists body, lit "[[1]" = 91 :: body ++ [93]) /\
  (forall x ws t y,
      all_space ws = true -> t = 44 \/ t = 59 ->
      lit "[[1]" <> x ++ 93 :: ws ++ t :: y).
Proof.
  apply (group_stops_at_first_closing (lit "structure = [[1],[2]];")).
  vm_compute. reflexivity.
Defined.

(** ** Which exceptions leave the loop body *)

Lemma strip_raises (v : value) (x : exn) :
  strip v = Raise x -> x = AttributeError.
Proof. destruct v; simpl; intros H; now inversion H. Qed.

Lemma isin_val_raises (item : dict) (x : exn) :
  isin_val item = Raise x -> x = AttributeError.
Proof.
  unfold isin_val. destruct (isinstance_str _); [|discriminate].
  apply strip_raises.
Qed.

Lemma ticker_val_raises (item : dict) (x : exn) :
  ticker_val item = Raise x -> x = AttributeError.
Proof.
  unfold ticker_val. destruct (isinstance_str _); [|discriminate].
  apply strip_raises.
Qed.

Lemma try_except_raises {A : Type} (c : res A) (h : A) (x : exn) :
  try_except_ValueError_TypeError c h = Raise x ->
  c = Raise x /\ x <> ValueError /\ x <> TypeError.
Proof.
  destruct c as [a|[]]; simpl; intros H; inversion H; subst;
    repeat split; discriminate.
Qed.

Lemma float_of_value_raises (v : value) (x : exn) :
  float_of_value v = Raise x ->
  x = TypeError \/ x = ValueError \/ x = OverflowError.
Proof.
  intros H. pose proof (float_of_value_exn _ _ H). destruct x; auto.
  contradiction.
Qed.

Lemma weight_of_raises (item : dict) (x : exn) :
  weight_of item = Raise x -> x = OverflowError.
Proof.
  unfold weight_of. destruct (negb (is_None (weight_num item))).
  - intros H. apply try_except_raises in H. destruct H as (H & Hv & Ht).
    destruct (float_of_value (weight_num item)) as [f|e] eqn:Hf;
      [discriminate|].
    simpl in H. inversion H; subst.
    destruct (float_of_value_raises _ _ Hf) as [->|[->| ->]]; congruence.
  - destruct (negb (is_None (weight_rounded item))); [|discriminate].
    intros H. apply try_except_raises in H. destruct H as (H & Hv & Ht).
    destruct (float_of_value_raises _ _ H) as [->|[->| ->]]; congruence.
Qed.

Lemma entry_for_raises (item : dict) (x : exn) :
  entry_for item = Raise x -> x = AttributeError \/ x = OverflowError.
Proof.
  unfold entry_for.
  destruct (name_of item) as [n|e] eqn:Hn; simpl.
  2:{ intros H; inversion H; subst. left. now apply (strip_raises _ _ Hn). }
  destruct (isin_val item) as [i|e] eqn:Hi; simpl.
  2:{ intros H; inversion H; subst. left.
      now apply (isin_val_raises _ _ Hi). }
  destruct (ticker_val item) as [t|e] eqn:Ht; simpl.
  2:{ intros H; inversion H; subst. left.
      now apply (ticker_val_raises _ _ Ht). }
  destruct (str_empty n); [discriminate|].
  destruct (weight_of item) as [w|e] eqn:Hw; simpl; [discriminate|].
  intros H; inversion H; subst. right. now apply (weight_of_raises _ _ Hw).
Qed.

Lemma entries_raises (items : list dict) (x : exn) :
  entries items = Raise x -> x = AttributeError \/ x = OverflowError.
Proof.
  induction items as [|item rest IH]; simpl; [discriminate|].
  destruct (entry_for item) as [oe|e] eqn:He; simpl.
  - destruct (entries rest) as [es|e]; simpl; [discriminate|].
    intros H; inversion H; subst. now apply IH.
  - intros H; inversion H; subst. now apply (entry_for_raises _ _ He).
Qed.

(** X5: the only exceptions that leave the normalisation are
    [AttributeError] and [OverflowError]; the [ValueError] and
    [TypeError] of a weight that does not convert never do. *)
Theorem normalize_raises_only (cb : value) (items : list dict) (x : exn) :
  normalize cb items = Raise x -> x = AttributeError \/ x = OverflowError.
Proof.
  rewrite normalize_entries.
  destruct (entries items) as [es|e] eqn:He; simpl; [discriminate|].
  intros H; inversion H; subst. now apply (entries_raises _ _ He).
Qed.

Lemma normalize_raises_only_witness :
  OverflowError = AttributeError \/ OverflowError = OverflowError.
Proof.
  apply (normalize_raises_only VNone
           [[(lit "asset_name", json_str "A");
             (lit "weight.rounded", VInt (10 ^ 400))]]).
  vm_compute. reflexivity.
Defined.

(** ** Step 4 on any value *)

Import Main.

Lemma for_item_in_structure_dicts (ds : list dict) (h : list entry) :
  for_item_in_structure (map VDict ds) h =
  of_res (es <- entries ds ;; Ok (h ++ es)).
Proof.
  revert h; induction ds as [|d ds IH]; intros h; simpl.
  - now rewrite app_nil_r.
  - destruct (entry_for d) as [[e|]|x]; simpl; trivial; rewrite IH;
      destruct (entries ds) as [es|x]; simpl; trivial.
    now rewrite <- app_assoc.
Qed.

Lemma for_item_in_structure_Returned (items : list value) (h h' : list entry) :
  for_item_in_structure items h = Returned h' ->
  exists ds, items = map VDict ds.
Proof.
  revert h; induction items as [|item rest IH]; intros h; simpl.
  - now exists [].
  - destruct item; simpl; try discriminate.
    destruct (entry_for d) as [oe|x]; simpl; [|discriminate].
    intros H. destruct (IH _ H) as (ds & ->). now exists (d :: ds).
Qed.

Lemma for_item_in_structure_raises (items : list value) (h : list entry)
  (e : exc) :
  for_item_in_structure items h = Raised e ->
  e = Builtin AttributeError \/ e = Builtin OverflowError.
Proof.
  revert h; induction items as [|item rest IH]; intros h; simpl;
    [discriminate|].
  destruct item; simpl; try (intros H; inversion H; now left).
  destruct (entry_for d) as [oe|x] eqn:Hd; simpl.
  - apply IH.
  - intros H; inversion H; subst.
    destruct (entry_for_raises _ _ Hd) as [-> | ->]; auto.
Qed.

Lemma step4_of_dicts (cb : value) (ds : list dict) :
  step4_of cb (VList (map VDict ds)) = of_res (normalize cb ds).
Proof.
  unfold step4_of. cbn [iter and_then].
  rewrite for_item_in_structure_dicts, normalize_entries. simpl.
  destruct (entries ds) as [es|x]; simpl; trivial.
  destruct ds as [|d ds]; reflexivity.
Qed.

Lemma step4_of_Returned (cb structure : value) (rep : report) :
  step4_of cb structure = Returned rep ->
  exists ds,
    normalize cb ds = Ok rep /\
    (structure = VList (map VDict ds) \/
     ds = [] /\ (structure = VStr [] \/ structure = VDict [])).
Proof.
  unfold step4_of. destruct structure; simpl; try discriminate.
  - destruct s as [|c s]; simpl; [|discriminate].
    intros H; inversion H. exists []. split; [reflexivity|]. auto.
  - destruct (for_item_in_structure l []) as [h|e] eqn:Hl; simpl;
      [|discriminate].
    destruct (for_item_in_structure_Returned _ _ _ Hl) as (ds & ->).
    intros H. exists ds. split; [|now left].
    pose proof (step4_of_dicts cb ds) as Hs. unfold step4_of in Hs.
    cbn [iter and_then] in Hs. rewrite Hl in Hs. simpl in Hs.
    rewrite H in Hs. destruct (normalize cb ds); simpl in Hs;
      [now inversion Hs|discriminate].
  - destruct d as [|kv d]; simpl; [|discriminate].
    intros H; inversion H. exists []. split; [reflexivity|]. auto.
Qed.

Lemma step4_of_Raised (cb structure : value) (e : exc) :
  step4_of cb structure = Raised e ->
  e = Builtin AttributeError \/ e = Builtin OverflowError \/
  (e = Builtin TypeError /\
   forall l s d, structure <> VList l /\ structure <> VStr s /\
                 structure <> VDict d).
Proof.
  unfold step4_of. destruct structure; simpl;
    try (intros H; inversion H; right; right; split; trivial;
         repeat split; discriminate).
  - destruct s as [|c s]; simpl; [discriminate|].
    intros H; inversion H; auto.
  - destruct (for_item_in_structure l []) as [h|x] eqn:Hl; simpl.
    + destruct (for_item_in_structure_Returned _ _ _ Hl) as (ds & ->).
      destruct ds as [|d ds]; simpl; discriminate.
    + intros H; inversion H; subst.
      destruct (for_item_in_structure_raises _ _ _ Hl) as [-> | ->]; auto.
  - destruct d as [|kv d]; simpl; [discriminate|].
    intros H; inversion H; auto.
Qed.

(** ** What the entries hold *)

Lemma lstrip_fixed (sp : Z -> bool) (s : str) :
  (forall c s', s = c :: s' -> sp c = false) -> lstrip sp s = s.
Proof.
  destruct s as [|c s]; simpl; trivial. intros H.
  now rewrite (H c s eq_refl).
Qed.

Lemma lstrip_head (sp : Z -> bool) (s : str) (c : Z) (s' : str) :
  lstrip sp s = c :: s' -> sp c = false.
Proof.
  induction s as [|x s IH]; simpl; [discriminate|].
  destruct (sp x) eqn:Hx; trivial. intros H; inversion H; now subst.
Qed.

Lemma lstrip_idem (sp : Z -> bool) (s : str) :
  lstrip sp (lstrip sp s) = lstrip sp s.
Proof.
  apply lstrip_fixed. intros c s' H. now apply lstrip_head in H.
Qed.

Lemma rstrip_idem (sp : Z -> bool) (s : str) :
  rstrip sp (rstrip sp s) = rstrip sp s.
Proof.
  unfold rstrip. now rewrite rev_involutive, lstrip_idem.
Qed.

(** Stripping on the right leaves the first character where it is. *)
Lemma rstrip_cons (sp : Z -> bool) (c : Z) (s : str) :
  sp c = false -> exists s', rstrip sp (c :: s) = c :: s'.
Proof.
  intros Hc. unfold rstrip. simpl rev.
  assert (H : forall t, exists t', lstrip sp (t ++ [c]) = t' ++ [c]).
  { induction t as [|x t (t' & IH)]; simpl.
    - rewrite Hc. now exists [].
    - destruct (sp x); [now exists t'|]. now exists (x :: t). }
  destruct (H (rev s)) as (t' & ->). rewrite rev_app_distr. simpl. eauto.
Qed.

Lemma str_strip_idem (s : str) : str_strip (str_strip s) = str_strip s.
Proof.
  unfold str_strip.
  destruct (lstrip unicode_isspace s) as [|c t] eqn:Hl; [reflexivity|].
  pose proof (lstrip_head _ _ _ _ Hl) as Hc.
  destruct (rstrip_cons unicode_isspace c t Hc) as (t' & Hr).
  rewrite Hr at 1. rewrite <- Hr at 1.
  rewrite (lstrip_fixed _ (rstrip unicode_isspace (c :: t))).
  - apply rstrip_idem.
  - rewrite Hr. intros x s' H; inversion H; now subst.
Qed.

Lemma strip_Ok_stripped (v : value) (s : str) :
  strip v = Ok s -> str_strip s = s.
Proof.
  destruct v; simpl; try discriminate. intros H; inversion H.
  apply str_strip_idem.
Qed.

Lemma isin_val_stripped (item : dict) (s : str) :
  isin_val item = Ok s -> str_strip s = s.
Proof.
  unfold isin_val. destruct (isinstance_str _).
  - apply strip_Ok_stripped.
  - intros H; inversion H. reflexivity.
Qed.

Lemma ticker_val_stripped (item : dict) (s : str) :
  ticker_val item = Ok s -> str_strip s = s.
Proof.
  unfold ticker_val. destruct (isinstance_str _).
  - apply strip_Ok_stripped.
  - intros H; inversion H. reflexivity.
Qed.

(** X6: the strings of an entry are stripped: neither the name nor an
    ISIN or ticker begins or ends with white space, and an ISIN or ticker
    that is there is not empty. *)
Theorem entry_strings_are_stripped (item : dict) (e : entry) :
  entry_for item = Ok (Some e) ->
  str_strip (e_name e) = e_name e /\
  (forall s, e_isin e = Some s -> s <> [] /\ str_strip s = s) /\
  (forall s, e_ticker e = Some s -> s <> [] /\ str_strip s = s).
Proof.
  intros H. apply entry_for_Some_inv in H.
  destruct H as (n & i & t & w & Hn & _ & Hi & Ht & _ & ->). simpl.
  split; [now apply (strip_Ok_stripped _ _ Hn)|]. split.
  - destruct i as [|c i]; simpl; [discriminate|].
    intros s Hs; inversion Hs; subst. split; [discriminate|].
    now apply (isin_val_stripped item).
  - destruct t as [|c t]; simpl; [discriminate|].
    intros s Hs; inversion Hs; subst. split; [discriminate|].
    now apply (ticker_val_stripped item).
Qed.

Lemma entry_strings_are_stripped_witness :
  let e := {| e_name := lit "Apple Inc"; e_weight := float_0;
              e_isin := Some (lit "US0378331005");
              e_ticker := Some (lit "AAPL") |} in
  str_strip (e_name e) = e_name e /\
  (forall s, e_isin e = Some s -> s <> [] /\ str_strip s = s) /\
  (forall s, e_ticker e = Some s -> s <> [] /\ str_strip s = s).
Proof.
  cbv zeta.
  apply (entry_strings_are_stripped
           [(lit "asset_name", json_str "  Apple Inc ");
            (lit "asset_isin", json_str " US0378331005");
            (lit "ticker", json_str "AAPL  ")]).
  vm_compute. reflexivity.
Defined.

(** X7: when the candidates for ISIN and ticker are strings where they
    are present, each field is the first candidate that is not empty,
    stripped, and the field is left out when that is empty. *)
Theorem optional_fields_of_strings (item : dict) (e : entry) :
  entry_for item = Ok (Some e) ->
  (str_or_absent item (lit "isin") = true ->
   str_or_absent item (lit "asset_isin") = true ->
   str_or_absent item (lit "emitent_isin") = true ->
   e_isin e =
   match first_nonempty_str item
           [lit "isin"; lit "asset_isin"; lit "emitent_isin"] with
   | [] => None
   | s => Some s
   end)
  /\
  (str_or_absent item (lit "ticker") = true ->
   str_or_absent item (lit "asset_ticker") = true ->
   e_ticker e =
   match first_nonempty_str item [lit "ticker"; lit "asset_ticker"] with
   | [] => None
   | s => Some s
   end).
Proof.
  intros H. apply entry_for_Some_inv in H.
  destruct H as (n & i & t & w & _ & _ & Hi & Ht & _ & ->).
  cbn [e_isin e_ticker]. split.
  - intros H1 H2 H3. rewrite (isin_val_of_strings _ H1 H2 H3) in Hi.
    set (f := first_nonempty_str item _) in *. injection Hi as <-.
    now destruct f.
  - intros H1 H2. rewrite (ticker_val_of_strings _ H1 H2) in Ht.
    set (f := first_nonempty_str item _) in *. injection Ht as <-.
    now destruct f.
Qed.

Lemma optional_fields_of_strings_witness :
  Some (lit "US0378331005") =
  match first_nonempty_str
          [(lit "asset_name", json_str "A"); (lit "isin", json_str "");
           (lit "emitent_isin", json_str " US0378331005 ")]
          [lit "isin"; lit "asset_isin"; lit "emitent_isin"] with
  | [] => None
  | s => Some s
  end.
Proof.
  refine (proj1 (optional_fields_of_strings
                   [(lit "asset_name", json_str "A");
                    (lit "isin", json_str "");
                    (lit "emitent_isin", json_str " US0378331005 ")]
                   {| e_name := lit "A"; e_weight := float_0;
                      e_isin := Some (lit "US0378331005");
                      e_ticker := None |} _) _ _ _);
    vm_compute; reflexivity.
Defined.

(** ** Records and holdings *)

Lemma entries_Ok_cons (item : dict) (rest : list dict) (es : list entry) :
  entries (item :: rest) = Ok es ->
  exists oe es',
    entry_for item = Ok oe /\ entries rest = Ok es' /\
    es = match oe with Some e => e :: es' | None => es' end.
Proof.
  simpl. destruct (entry_for item) as [oe|x]; simpl; [|discriminate].
  destruct (entries rest) as [es'|x]; simpl; [|discriminate].
  intros H; inversion H. now exists oe, es'.
Qed.

Lemma entry_for_name_value (item : dict) (e : entry) :
  entry_for item = Ok (Some e) -> e_name e = name_value item.
Proof.
  intros H. apply entry_for_Some_inv in H.
  destruct H as (n & i & t & w & Hn & _ & _ & _ & _ & ->). simpl.
  unfold name_of, name_value in *.
  destruct (dict_get item (lit "asset_name") (VStr [])); simpl in Hn;
    try discriminate.
  now inversion Hn.
Qed.

Lemma entries_name_values (items : list dict) (es : list entry) :
  entries items = Ok es ->
  map e_name es = map name_value (filter usable_name items).
Proof.
  revert es; induction items as [|item rest IH]; intros es H.
  - simpl in H. now inversion H.
  - apply entries_Ok_cons in H.
    destruct H as (oe & es' & He & Hrest & ->). cbn [filter].
    destruct (entry_for_Ok_name _ _ He) as [(Hu & e & -> & _)|(Hu & ->)];
      rewrite Hu.
    + cbn [map]. f_equal; [now apply entry_for_name_value|now apply IH].
    + now apply IH.
Qed.

(** X8: every record with a usable name, and no other, has one entry in
    the report, under its stripped name: the names of the holdings are
    the names of those records, rearranged. *)
Theorem one_holding_per_named_record
  (cb : value) (items : list dict) (rep : report) :
  normalize cb items = Ok rep ->
  Permutation (map e_name (r_holdings rep))
              (map name_value (filter usable_name items)).
Proof.
  intros H. apply normalize_Ok_inv in H. destruct H as (es & Hes & ->).
  cbn [r_holdings report_of].
  rewrite <- (entries_name_values _ _ Hes).
  apply Permutation_map, sort_reverse_Permutation.
Qed.

Lemma one_holding_per_named_record_witness :
  let entry n w := {| e_name := lit n; e_weight := float_of_decimal false w 0;
                      e_isin := None; e_ticker := None |} in
  let items := [[(lit "asset_name", json_str " A ");
                 (lit "weight.rounded", VInt 1)];
                [(lit "weight.rounded", VInt 2)];
                [(lit "asset_name", json_str "B");
                 (lit "weight.rounded", VInt 3)]] in
  Permutation (map e_name [entry "B"%string 3; entry "A"%string 1])
              (map name_value (filter usable_name items)).
Proof.
  cbv zeta.
  apply (one_holding_per_named_record VNone _
           {| r_holdings :=
                [{| e_name := lit "B"; e_weight := float_of_decimal false 3 0;
                    e_isin := None; e_ticker := None |};
                 {| e_name := lit "A"; e_weight := float_of_decimal false 1 0;
                    e_isin := None; e_ticker := None |}];
              r_cbondsId := VNone; r_totalCount := 2;
              r_availableFields := [lit "asset_name"; lit "weight.rounded"] |}).
  vm_compute. reflexivity.
Defined.

Lemma entries_filter_usable (items : list dict) (es : list entry) :
  entries items = Ok es -> entries (filter usable_name items) = Ok es.
Proof.
  revert es; induction items as [|item rest IH]; intros es H; trivial.
  apply entries_Ok_cons in H. destruct H as (oe & es' & He & Hrest & ->).
  cbn [filter].
  destruct (entry_for_Ok_name _ _ He) as [(Hu & e & -> & _)|(Hu & ->)];
    rewrite Hu.
  - simpl. now rewrite He, (IH _ Hrest).
  - now apply IH.
Qed.

Lemma entries_unfilter_usable (items : list dict) (es : list entry) :
  (forall item, In item items -> usable_name item = false ->
                entry_for item = Ok None) ->
  entries (filter usable_name items) = Ok es -> entries items = Ok es.
Proof.
  revert es; induction items as [|item rest IH]; intros es Hdrop H; trivial.
  assert (Hrest : forall it, In it rest -> usable_name it = false ->
                             entry_for it = Ok None)
    by (intros it Hin; apply Hdrop; now right).
  cbn [filter] in H. destruct (usable_name item) eqn:Hu.
  - apply entries_Ok_cons in H. destruct H as (oe & es' & He & Hes' & ->).
    simpl. now rewrite He, (IH _ Hrest Hes').
  - simpl. rewrite (Hdrop item (or_introl eq_refl) Hu), (IH _ Hrest H).
    reflexivity.
Qed.

(** X9: step 4 returns a report with holdings [h] exactly when every
    record without a usable name passes the loop body without raising
    and step 4 on the input without those records returns a report with
    holdings [h]; [totalCount] is the length of [h] either way.  Taking
    the nameless records out beforehand thus leaves the holdings and the
    count of a report as they are, and can only turn a run that raises
    into one that reports. *)
Theorem nameless_records_do_not_matter
  (cb : value) (items : list dict) (h : list entry) :
  (exists rep,
      normalize cb items = Ok rep /\
      r_holdings rep = h /\ r_totalCount rep = Z.of_nat (List.length h))
  <->
  (forall item, In item items -> usable_name item = false ->
                entry_for item = Ok None) /\
  (exists rep',
      normalize cb (filter usable_name items) = Ok rep' /\
      r_holdings rep' = h /\ r_totalCount rep' = Z.of_nat (List.length h)).
Proof.
  split.
  - intros (rep & H & <- & _).
    apply normalize_Ok_inv in H. destruct H as (es & Hes & ->).
    split; [apply (entries_names _ _ Hes)|].
    rewrite normalize_entries, (entries_filter_usable _ _ Hes). simpl.
    eexists. split; [reflexivity|]. now split.
  - intros (Hdrop & rep' & H & <- & _).
    apply normalize_Ok_inv in H. destruct H as (es & Hes & ->).
    rewrite normalize_entries, (entries_unfilter_usable _ _ Hdrop Hes).
    simpl. eexists. split; [reflexivity|]. now split.
Qed.

Lemma nameless_records_do_not_matter_witness :
  exists rep',
    normalize VNone
      (filter usable_name
         [[(lit "weight.rounded", VInt 2)];
          [(lit "asset_name", json_str "B");
           (lit "weight.rounded", VInt 3)]]) = Ok rep' /\
    r_holdings rep' =
      [{| e_name := lit "B"; e_weight := float_of_decimal false 3 0;
          e_isin := None; e_ticker := None |}] /\
    r_totalCount rep' = Z.of_nat 1.
Proof.
  apply (proj1 (nameless_records_do_not_matter VNone
                  [[(lit "weight.rounded", VInt 2)];
                   [(lit "asset_name", json_str "B");
                    (lit "weight.rounded", VInt 3)]]
                  [{| e_name := lit "B";
                      e_weight := float_of_decimal false 3 0;
                      e_isin := None; e_ticker := None |}])).
  eexists. split; [vm_compute; reflexivity|]. split; reflexivity.
Defined.

Lemma entries_In_raises (items : list dict) (item : dict) (x : exn) :
  In item items -> entry_for item = Raise x ->
  exists y, entries items = Raise y.
Proof.
  induction items as [|it rest IH]; [intros []|].
  intros [->|Hin] Hx; simpl.
  - rewrite Hx. simpl. eauto.
  - destruct (entry_for it) as [oe|y]; simpl; [|eauto].
    destruct (IH Hin Hx) as (y & ->). simpl. eauto.
Qed.

(** X10: a record whose ["asset_name"] is there and is not a string
    (null, a number, a list) stops the normalisation with an exception,
    wherever the record stands: no report comes out. *)
Theorem non_string_name_aborts_batch
  (cb : value) (items : list dict) (item : dict) (v : value) :
  In item items ->
  dict_lookup item (lit "asset_name") = Some v ->
  isinstance_str v = false ->
  exists x, normalize cb items = Raise x.
Proof.
  intros Hin Hv Hs.
  assert (Hx : entry_for item = Raise AttributeError).
  { unfold entry_for, name_of, dict_get. rewrite Hv.
    destruct v; try discriminate; reflexivity. }
  destruct (entries_In_raises _ _ _ Hin Hx) as (y & Hy).
  exists y. now rewrite normalize_entries, Hy.
Qed.

Lemma non_string_name_aborts_batch_witness :
  exists x,
    normalize VNone
      [[(lit "asset_name", json_str "A")];
       [(lit "asset_name", VInt 7)]] = Raise x.
Proof.
  apply (non_string_name_aborts_batch VNone _
           [(lit "asset_name", VInt 7)] (VInt 7)).
  - right. now left.
  - reflexivity.
  - reflexivity.
Defined.

Lemma normalize_raises_anywhere
  (cb : value) (before after : list dict) (item : dict) (x : exn) :
  entry_for item = Raise x ->
  exists y, normalize cb (before ++ item :: after) = Raise y.
Proof.
  intros Hx.
  destruct (entries_In_raises _ _ _ (in_elt item before after) Hx)
    as (y & Hy).
  exists y. now rewrite normalize_entries, Hy.
Qed.

(** C6, at a failing input: a record whose name is empty is not always
    dropped in silence.  Lines 88-100 run before the test of line 102, and
    the guard of lines 88-93 lets [.strip()] reach an integer (the defect
    shown under C1): the record has no usable name, its stripped name is
    the empty string, and yet it raises [AttributeError]; the run then
    stops without a report, wherever the record stands and whatever the
    other records are. *)
Theorem nameless_record_raises (cb : value) :
  let nameless := [(lit "asset_name", json_str "");
                   (lit "isin", json_str "");
                   (lit "asset_isin", VInt 5)] in
  usable_name nameless = false /\
  name_of nameless = Ok [] /\
  entry_for nameless = Raise AttributeError /\
  normalize cb [[(lit "asset_name", json_str "A")]; nameless]
  = Raise AttributeError /\
  forall before after : list dict,
    exists x, normalize cb (before ++ nameless :: after) = Raise x.
Proof.
  cbv zeta.
  split; [reflexivity|]. split; [reflexivity|].
  split; [vm_compute; reflexivity|]. split; [vm_compute; reflexivity|].
  intros before after.
  apply normalize_raises_anywhere with (x := AttributeError).
  vm_compute. reflexivity.
Qed.

Lemma entries_Permutation (items items' : list dict) (es : list entry) :
  Permutation items items' -> entries items = Ok es ->
  exists es', entries items' = Ok es' /\ Permutation es es'.
Proof.
  intros Hp; revert es.
  induction Hp as [|x l l' Hp IH|x y l|l l' l'' Hp1 IH1 Hp2 IH2];
    intros es H.
  - exists es. now split.
  - apply entries_Ok_cons in H. destruct H as (oe & es1 & He & Hl & ->).
    destruct (IH _ Hl) as (es1' & Hl' & Hperm).
    simpl. rewrite He, Hl'. simpl. eexists. split; [reflexivity|].
    destruct oe; [now constructor|trivial].
  - apply entries_Ok_cons in H. destruct H as (oy & es1 & Hy & H & ->).
    apply entries_Ok_cons in H. destruct H as (ox & es2 & Hx & Hl & ->).
    simpl. rewrite Hx, Hy, Hl. simpl. eexists. split; [reflexivity|].
    destruct ox, oy; try reflexivity. apply perm_swap.
  - destruct (IH1 _ H) as (es1 & H1 & P1).
    destruct (IH2 _ H1) as (es2 & H2 & P2).
    exists es2. split; trivial. now transitivity es1.
Qed.

(** X11: the order of the records decides the order of equal weights and
    nothing else: the same records in another order give a report with
    the same holdings, rearranged, and the same count. *)
Theorem holdings_up_to_input_order
  (cb : value) (items items' : list dict) (rep : report) :
  Permutation items items' ->
  normalize cb items = Ok rep ->
  exists rep',
    normalize cb items' = Ok rep' /\
    Permutation (r_holdings rep) (r_holdings rep') /\
    r_totalCount rep' = r_totalCount rep.
Proof.
  intros Hp H. apply normalize_Ok_inv in H. destruct H as (es & Hes & ->).
  destruct (entries_Permutation _ _ _ Hp Hes) as (es' & Hes' & Hperm).
  rewrite normalize_entries, Hes'. simpl. eexists. split; [reflexivity|].
  cbn [r_holdings r_totalCount report_of].
  assert (Hsorted : Permutation (sort_reverse e_weight es)
                                (sort_reverse e_weight es')).
  { rewrite !sort_reverse_Permutation. exact Hperm. }
  split; trivial. f_equal. symmetry. now apply Permutation_length.
Qed.

Lemma holdings_up_to_input_order_witness :
  let a := [(lit "asset_name", json_str "A"); (lit "weight.rounded", VInt 1)] in
  let b := [(lit "asset_name", json_str "B"); (lit "weight.rounded", VInt 3)] in
  let entry n w := {| e_name := lit n; e_weight := float_of_decimal false w 0;
                      e_isin := None; e_ticker := None |} in
  exists rep',
    normalize VNone [b; a] = Ok rep' /\
    Permutation [entry "B"%string 3; entry "A"%string 1] (r_holdings rep') /\
    r_totalCount rep' = 2.
Proof.
  cbv zeta.
  apply (holdings_up_to_input_order VNone
           [[(lit "asset_name", json_str "A"); (lit "weight.rounded", VInt 1)];
            [(lit "asset_name", json_str "B"); (lit "weight.rounded", VInt 3)]]
           _
           {| r_holdings :=
                [{| e_name := lit "B"; e_weight := float_of_decimal false 3 0;
                    e_isin := None; e_ticker := None |};
                 {| e_name := lit "A"; e_weight := float_of_decimal false 1 0;
                    e_isin := None; e_ticker := None |}];
              r_cbondsId := VNone; r_totalCount := 2;
              r_availableFields := [lit "asset_name"; lit "weight.rounded"] |}).
  - apply perm_swap.
  - vm_compute. reflexivity.
Defined.

(** X12: a batch of records in which names and the candidates for ISIN
    and ticker are strings where present, and no weight is an integer
    beyond the range of a float, is normalised without an exception. *)
Theorem plain_batch_never_raises (cb : value) (items : list dict) :
  forallb plain_record items = true ->
  exists rep, normalize cb items = Ok rep.
Proof. apply normalize_plain. Qed.

Lemma plain_batch_never_raises_witness :
  exists rep,
    normalize VNone
      [[(lit "asset_name", json_str "A");
        (lit "weight.numeric", json_str "n/a");
        (lit "isin", json_str "")];
       [(lit "weight.rounded", VList [])]] = Ok rep.
Proof.
  apply plain_batch_never_raises. vm_compute. reflexivity.
Defined.

(** ** The runs of [main] *)

Lemma resolve_id_Exits (w : world) (isin : str) (o : json_object) (code : Z) :
  resolve_id w isin = Exits o code ->
  exists m,
    code = 1 /\ o = [("error"%string, JMessage m)] \/
    code = 0 /\ o = [("error"%string, JMessage m);
                     ("holdings"%string, JHoldings [])].
Proof.
  unfold resolve_id.
  destruct (requests_get w (SuggestUrl isin)) as [r|e]; [|discriminate].
  destruct (negb (status_code r =? 200)).
  { intros H; inversion H; subst. eauto. }
  destruct (json r) as [data|e]; [|discriminate].
  destruct (response <~ get data (lit "response") (VDict []) ;;
            get response (lit "items") (VList [])) as [items|e];
    [|discriminate].
  destruct (negb (truthy items)).
  { intros H; inversion H; subst. eauto. }
  destruct (first <~ item_0 items ;; item_str first (lit "id"));
    discriminate.
Qed.

Lemma resolve_id_Bound (w : world) (isin : str) (cbonds_id : value) :
  resolve_id w isin = Bound cbonds_id <->
  exists r data response items first,
    requests_get w (SuggestUrl isin) = Returned r /\
    status_code r = 200 /\
    json r = Returned data /\
    get data (lit "response") (VDict []) = Returned response /\
    get response (lit "items") (VList []) = Returned items /\
    truthy items = true /\
    item_0 items = Returned first /\
    item_str first (lit "id") = Returned cbonds_id.
Proof.
  unfold resolve_id. split.
  - destruct (requests_get w (SuggestUrl isin)) as [r|e] eqn:Hr;
      [|discriminate].
    destruct (status_code r =? 200) eqn:Hs; [|discriminate]. simpl.
    destruct (json r) as [data|e] eqn:Hj; [|discriminate].
    destruct (get data (lit "response") (VDict [])) as [response|e] eqn:H1;
      [|discriminate]. simpl.
    destruct (get response (lit "items") (VList [])) as [items|e] eqn:H2;
      [|discriminate].
    destruct (truthy items) eqn:Ht; [|discriminate]. simpl.
    destruct (item_0 items) as [first|e] eqn:H3; [|discriminate]. simpl.
    destruct (item_str first (lit "id")) as [cb|e] eqn:Hid; [|discriminate].
    intros H; inversion H; subst.
    exists r, data, response, items, first. repeat split; trivial.
    now apply Z.eqb_eq.
  - intros (r & data & response & items & first & Hr & Hs & Hj & H1 & H2
            & Ht & H3 & Hid).
    rewrite Hr, Hs, Hj. cbn [negb]. rewrite H1. cbn [and_then].
    rewrite H2, Ht. cbn [negb]. rewrite H3. cbn [and_then].
    now rewrite Hid.
Qed.

Lemma fetch_page_Exits (w : world) (cb : value) (o : json_object) (code : Z) :
  fetch_page w cb = Exits o code ->
  exists m, code = 1 /\ o = [("error"%string, JMessage m)].
Proof.
  unfold fetch_page.
  destruct (requests_get w (EtfUrl cb)) as [r|e]; [|discriminate].
  destruct (negb (status_code r =? 200)); [|discriminate].
  intros H; inversion H; subst. eauto.
Qed.

Section Runs.
Variable upper : str -> str.
Variable json_loads : option str -> result value.

(** The moves that take [main] apart, one test after the other. *)
Ltac main_paths w :=
  unfold main, extract_and_report, stop;
  destruct (Z.of_nat (List.length (argv w)) <? 2) eqn:Hargv;
  [|destruct (curl_cffi_installed w) eqn:Hcurl;
    [destruct (resolve_id w _) as [cb|o1 code1|e1] eqn:Hres;
     [destruct (fetch_page w cb) as [html|o2 code2|e2] eqn:Hpage;
      [destruct (re_search structure_pattern html) as [g1|] eqn:Hre;
       [destruct (json_loads g1) as [structure|e3] eqn:Hjson;
        [destruct (step4_of cb structure) as [rep|e4] eqn:Hs4
        |destruct e3]
       |]
      | |]
     | |]
    |]];
  cbn [negb printed ended requested exit_status].

(** X13: a run prints one JSON object, or none when it ends in a
    traceback.  With [sys.exit(1)] the object has an ["error"] and no
    ["holdings"]; with [sys.exit(0)] it has an ["error"] and an empty
    ["holdings"]; at the normal end it is the report.  No other exit
    code is used. *)
Theorem one_object_per_run (w : world) :
  match ended (main upper json_loads w) with
  | Traceback _ => printed (main upper json_loads w) = []
  | Return => exists rep,
      printed (main upper json_loads w) = [result_object rep]
  | SystemExit code =>
      exists o,
        printed (main upper json_loads w) = [o] /\
        has_key "error" o = true /\
        (code = 1 /\ field "holdings" o = None \/
         code = 0 /\ field "holdings" o = Some (JHoldings []))
  end.
Proof.
  main_paths w; eauto;
    try (eexists; split; [reflexivity|]; split; [reflexivity|]; auto; fail).
  all: try (destruct (fetch_page_Exits _ _ _ _ Hpage) as (m & -> & ->);
            eauto 6; fail).
  all: try (destruct (resolve_id_Exits _ _ _ _ Hres)
              as (m & [[-> ->]|[-> ->]]); eauto 6; fail).
Qed.

(** X14: what a run asks of the network, in full: nothing when the
    argument or [curl_cffi] is missing; else the suggest URL for the
    stripped, upper-cased argument; and after it the fund page, only when
    the suggest answer had status 200 and a JSON body whose
    [response.items] is truthy and whose first item has an ["id"], with
    that id in the URL.  The three cases exclude each other. *)
Theorem requests_in_order (w : world) :
  let isin := upper (str_strip (nth 1 (argv w) [])) in
  let r := main upper json_loads w in
  (((Z.of_nat (List.length (argv w)) < 2) \/ curl_cffi_installed w = false) /\
   requested r = [])
  \/
  (2 <= Z.of_nat (List.length (argv w)) /\
   curl_cffi_installed w = true /\
   (forall cb, resolve_id w isin <> Bound cb) /\
   requested r = [SuggestUrl isin])
  \/
  (2 <= Z.of_nat (List.length (argv w)) /\
   curl_cffi_installed w = true /\
   exists cb rs data response items first,
     requests_get w (SuggestUrl isin) = Returned rs /\
     status_code rs = 200 /\
     json rs = Returned data /\
     get data (lit "response") (VDict []) = Returned response /\
     get response (lit "items") (VList []) = Returned items /\
     truthy items = true /\
     item_0 items = Returned first /\
     item_str first (lit "id") = Returned cb /\
     requested r = [SuggestUrl isin; EtfUrl cb]).
Proof.
  cbv zeta. main_paths w.
  all: try (apply Z.ltb_lt in Hargv; left; split; [now left|reflexivity]).
  all: apply Z.ltb_ge in Hargv.
  all: try (left; split; [now right|reflexivity]).
  all: try (right; left; repeat split; trivial; congruence).
  all: right; right; split; [exact Hargv|]; split; [reflexivity|];
    apply resolve_id_Bound in Hres;
    destruct Hres as (rs & data & response & items & first & H);
    exists cb, rs, data, response, items, first;
    repeat (split; [apply H|]); reflexivity.
Qed.

(** X15: a run ends in a traceback only after the page has been fetched
    and the pattern found in it: either [json.loads] raised something
    other than [JSONDecodeError], or step 4 raised [AttributeError],
    [OverflowError] or [TypeError].  No answer of the network does. *)
Theorem traceback_only_after_extraction (w : world) (e : exc) :
  ended (main upper json_loads w) = Traceback e ->
  exists cb html g,
    resolve_id w (upper (str_strip (nth 1 (argv w) []))) = Bound cb /\
    fetch_page w cb = Bound html /\
    re_search structure_pattern html = Some g /\
    (json_loads g = Raised e /\ e <> JSONDecodeError
     \/
     exists structure,
       json_loads g = Returned structure /\
       step4_of cb structure = Raised e /\
       (e = Builtin AttributeError \/ e = Builtin OverflowError \/
        e = Builtin TypeError)).
Proof.
  main_paths w; try discriminate; intros H; inversion H; subst;
    exists cb, html, g1; repeat split; trivial.
  all: try (left; split; [assumption|discriminate]).
  right. exists structure. repeat split; trivial.
  destruct (step4_of_Raised _ _ _ Hs4) as [->|[->|[-> _]]]; auto.
Qed.

(** X16: whatever the world, the holdings that a run prints have names
    that are not empty, their number is the [totalCount] printed with
    them, and, no weight being a NaN, no entry has a smaller weight than
    a later one. *)
Theorem printed_holdings_invariant
  (w : world) (o : json_object) (h : list entry) :
  In o (printed (main upper json_loads w)) ->
  field "holdings" o = Some (JHoldings h) ->
  Forall (fun e => e_name e <> []) h /\
  (forall n, field "totalCount" o = Some (JInt n) ->
             n = Z.of_nat (List.length h)) /\
  (Forall (fun e => float_is_nan (e_weight e) = false) h ->
   forall i j a b,
     (i < j)%nat -> nth_error h i = Some a -> nth_error h j = Some b ->
     float_ge (e_weight a) (e_weight b) = true).
Proof.
  assert (Hempty : forall h0 : list entry, h0 = [] ->
    Forall (fun e => e_name e <> []) h0 /\
    (Forall (fun e => float_is_nan (e_weight e) = false) h0 ->
     forall i j a b,
       (i < j)%nat -> nth_error h0 i = Some a -> nth_error h0 j = Some b ->
       float_ge (e_weight a) (e_weight b) = true)).
  { intros h0 ->. split; [constructor|]. intros _ i j a b _ Hi.
    now destruct i. }
  main_paths w; cbn [In]; intros Hin; try contradiction;
    destruct Hin as [<-|[]]; try discriminate.
  - (* the report *)
    cbn. intros Hh; inversion Hh; subst h. clear Hh.
    destruct (step4_of_Returned _ _ _ Hs4) as (ds & Hn & _).
    apply normalize_Ok_inv in Hn. destruct Hn as (es & Hes & ->). cbn.
    destruct (entries_names _ _ Hes) as (Hnames & _ & _).
    repeat split.
    + apply (Permutation_Forall
               (Permutation_sym (sort_reverse_Permutation e_weight es))),
        Hnames.
    + intros n Hn. now inversion Hn.
    + intros Hnan i j a b Hij Ha Hb.
      assert (Hnan' : Forall (fun e => float_is_nan (e_weight e) = false) es)
        by apply (Permutation_Forall (sort_reverse_Permutation e_weight es)),
           Hnan.
      rewrite Forall_forall in Hnan.
      apply float_not_lt_ge;
        try (apply Hnan; eapply nth_error_In; eassumption).
      apply (StronglySorted_nth_error _ _
               (sort_reverse_descending e_weight es Hnan') i j a b Hij Ha Hb).
  - (* no structure in the page *)
    cbn. intros Hh; inversion Hh; subst h.
    destruct (Hempty [] eq_refl) as [H1 H2]. repeat split; trivial.
    discriminate.
  - (* the second try *)
    destruct (fetch_page_Exits _ _ _ _ Hpage) as (m & _ & ->). discriminate.
  - (* the first try *)
    destruct (resolve_id_Exits _ _ _ _ Hres) as (m & [[_ ->]|[_ ->]]);
      [discriminate|].
    cbn. intros Hh; inversion Hh; subst h.
    destruct (Hempty [] eq_refl) as [H1 H2]. repeat split; trivial.
    discriminate.
Qed.

(** X17: a ["cbondsId"] is printed only with the id that the fund page
    was requested for. *)
Theorem printed_id_is_requested_id
  (w : world) (o : json_object) (v : value) :
  In o (printed (main upper json_loads w)) ->
  field "cbondsId" o = Some (JValue v) ->
  requested (main upper json_loads w)
  = [SuggestUrl (upper (str_strip (nth 1 (argv w) []))); EtfUrl v].
Proof.
  main_paths w; cbn [In]; intros Hin; try contradiction;
    destruct Hin as [<-|[]]; try discriminate.
  - cbn. intros Hv; inversion Hv; subst v.
    destruct (step4_of_Returned _ _ _ Hs4) as (ds & Hn & _).
    apply normalize_Ok_inv in Hn. destruct Hn as (es & _ & ->).
    reflexivity.
  - cbn. intros Hv; now inversion Hv.
  - destruct (fetch_page_Exits _ _ _ _ Hpage) as (m & _ & ->). discriminate.
  - destruct (resolve_id_Exits _ _ _ _ Hres) as (m & [[_ ->]|[_ ->]]);
      discriminate.
Qed.

End Runs.

Lemma traceback_only_after_extraction_witness :
  let w := sample_world (lit "structure = [1];") in
  exists cb html g,
    resolve_id w (sample_upper (str_strip (nth 1 (argv w) []))) = Bound cb /\
    fetch_page w cb = Bound html /\
    re_search structure_pattern html = Some g /\
    (sample_loads g = Raised (Builtin AttributeError) /\
     Builtin AttributeError <> JSONDecodeError
     \/
     exists structure,
       sample_loads g = Returned structure /\
       step4_of cb structure = Raised (Builtin AttributeError) /\
       (Builtin AttributeError = Builtin AttributeError \/
        Builtin AttributeError = Builtin OverflowError \/
        Builtin AttributeError = Builtin TypeError)).
Proof.
  cbv zeta.
  apply (traceback_only_after_extraction sample_upper sample_loads
           (sample_world (lit "structure = [1];"))).
  vm_compute. reflexivity.
Defined.

Lemma printed_holdings_invariant_witness :
  let h := [{| e_name := lit "Apple Inc";
               e_weight := float_of_decimal false 712 (-2);
               e_isin := None; e_ticker := None |}] in
  Forall (fun e => e_name e <> []) h /\
  (forall n,
      field "totalCount"
        (result_object
           {| r_holdings := h; r_cbondsId := VInt 1807; r_totalCount := 1;
              r_availableFields := [lit "asset_name"; lit "weight.numeric"] |})
      = Some (JInt n) ->
      n = Z.of_nat (List.length h)) /\
  (Forall (fun e => float_is_nan (e_weight e) = false) h ->
   forall i j a b,
     (i < j)%nat -> nth_error h i = Some a -> nth_error h j = Some b ->
     float_ge (e_weight a) (e_weight b) = true).
Proof.
  cbv zeta.
  apply (printed_holdings_invariant sample_upper sample_loads
           (sample_world sample_page)).
  - left. vm_compute. reflexivity.
  - vm_compute. reflexivity.
Defined.

Lemma printed_id_is_requested_id_witness :
  requested (main sample_upper sample_loads (sample_world (lit "no array")))
  = [SuggestUrl
       (sample_upper
          (str_strip (nth 1 (argv (sample_world (lit "no array"))) [])));
     EtfUrl (VInt 1807)].
Proof.
  apply (printed_id_is_requested_id sample_upper sample_loads
           (sample_world (lit "no array"))
           [("error"%string,
             JMessage [Text "Could not find structure data in page"]);
            ("holdings"%string, JHoldings []);
            ("cbondsId"%string, JValue (VInt 1807))]).
  - left. vm_compute. reflexivity.
  - reflexivity.
Defined.

(** X18: step 4 turns a list into a report exactly when every element
    of the list is an object and the normalisation of these objects
    gives that report; an element of another kind raises at line 82. *)
Theorem report_needs_objects (cb : value) (l : list value) (rep : report) :
  step4_of cb (VList l) = Returned rep <->
  exists ds, l = map VDict ds /\ normalize cb ds = Ok rep.
Proof.
  split.
  - intros H. destruct (step4_of_Returned _ _ _ H) as (ds & Hn & Hs).
    exists ds. split; trivial.
    destruct Hs as [Hs|(_ & [Hs|Hs])]; now inversion Hs.
  - intros (ds & -> & Hn). now rewrite step4_of_dicts, Hn.
Qed.

Lemma report_needs_objects_witness :
  exists ds,
    [VDict [(lit "asset_name", json_str "A")]] = map VDict ds /\
    normalize VNone ds
    = Ok {| r_holdings := [{| e_name := lit "A"; e_weight := float_0;
                              e_isin := None; e_ticker := None |}];
            r_cbondsId := VNone; r_totalCount := 1;
            r_availableFields := [lit "asset_name"] |}.
Proof.
  apply (proj1 (report_needs_objects VNone _ _)).
  vm_compute. reflexivity.
Defined.

(** ** Where a NaN weight comes from *)

Lemma shr_1_nonneg (mrs : shr_record) :
  0 <= shr_m mrs -> 0 <= shr_m (shr_1 mrs).
Proof.
  destruct mrs as [m r s]. simpl.
  destruct m as [|[p|p|]|p]; simpl; lia.
Qed.

Lemma iter_shr_1_nonneg (p : positive) (mrs : shr_record) :
  0 <= shr_m mrs -> 0 <= shr_m (iter_pos shr_1 p mrs).
Proof.
  revert mrs; induction p as [p IH|p IH|]; intros mrs H; simpl.
  - apply IH, IH. now apply shr_1_nonneg.
  - now apply IH, IH.
  - now apply shr_1_nonneg.
Qed.

Lemma shr_fexp_nonneg (m e : Z) (l : location) :
  0 <= m -> 0 <= shr_m (fst (shr_fexp prec emax m e l)).
Proof.
  intros H. unfold shr_fexp, shr.
  assert (H0 : 0 <= shr_m (shr_record_of_loc m l))
    by (destruct l as [|[]]; exact H).
  destruct (fexp prec emax (Zdigits2 m + e) - e); simpl; trivial.
  now apply iter_shr_1_nonneg.
Qed.

Lemma binary_round_aux_not_nan (s : bool) (m e : Z) (l : location) :
  0 <= m -> float_is_nan (binary_round_aux prec emax s m e l) = false.
Proof.
  intros H. unfold binary_round_aux.
  pose proof (shr_fexp_nonneg m e l H) as H1.
  destruct (shr_fexp prec emax m e l) as [mrs' e']. simpl in H1.
  assert (H2 : 0 <= round_nearest_even (shr_m mrs') (loc_of_shr_record mrs')).
  { unfold round_nearest_even.
    destruct (loc_of_shr_record mrs') as [|[]]; trivial;
      try destruct (Z.even (shr_m mrs')); lia. }
  pose proof (shr_fexp_nonneg _ e' loc_Exact H2) as H3.
  destruct (shr_fexp prec emax _ e' loc_Exact) as [mrs'' e'']. simpl in H3.
  destruct (shr_m mrs'') as [|p|p]; trivial; [|lia].
  now destruct (e'' <=? emax - prec).
Qed.

Lemma float_of_ratio_not_nan (s : bool) (n d : positive) :
  float_is_nan (float_of_ratio s n d) = false.
Proof.
  unfold float_of_ratio, SFdiv_core_binary.
  match goal with
  | |- context [Z.div_eucl ?a ?b] =>
      pose proof (Z_div_mod a b eq_refl) as Hd;
      assert (Ha : 0 <= a);
      [|destruct (Z.div_eucl a b) as [q r]]
  end.
  { destruct (_ - _ - _); try (cbv beta iota; lia).
    apply (proj2 (Z.shiftl_nonneg _ _)). lia. }
  apply binary_round_aux_not_nan. destruct Hd as [Hd Hr]. nia.
Qed.

Lemma float_of_decimal_not_nan (s : bool) (n e : Z) :
  float_is_nan (float_of_decimal s n e) = false.
Proof.
  unfold float_of_decimal. destruct n; trivial.
  destruct (0 <=? e); apply float_of_ratio_not_nan.
Qed.

Lemma round_nan (x : float) (ndigits : Z) :
  float_is_nan (round x ndigits) = true -> float_is_nan x = true.
Proof.
  destruct x; simpl; trivial. now rewrite float_of_decimal_not_nan.
Qed.

Lemma float_mul_100_nan (x : float) :
  float_is_nan (float_mul x float_100) = true -> float_is_nan x = true.
Proof.
  unfold float_mul.
  change float_100 with (S754_finite false 7036874417766400 (-46)).
  destruct x; simpl; trivial.
  rewrite binary_round_aux_not_nan; [trivial|lia].
Qed.

Lemma float_of_int_not_nan (z : Z) (f : float) :
  float_of_int z = Ok f -> float_is_nan f = false.
Proof.
  unfold float_of_int.
  pose proof (float_of_decimal_not_nan (z <? 0) (Z.abs z) 0) as H.
  destruct (float_of_decimal (z <? 0) (Z.abs z) 0); try discriminate;
    intros E; inversion E; subst; trivial.
Qed.

Lemma nan_weight_source (item : dict) (e : entry) :
  entry_for item = Ok (Some e) ->
  float_is_nan (e_weight e) = true ->
  exists v f,
    (v = weight_num item \/
     weight_num item = VNone /\ v = weight_rounded item) /\
    float_of_value v = Ok f /\ float_is_nan f = true /\
    (forall z, v <> VInt z) /\ (forall b, v <> VBool b).
Proof.
  intros He Hnan. apply entry_for_weight in He.
  assert (Hnum : forall v f, float_of_value v = Ok f ->
                 float_is_nan f = true ->
                 (forall z, v <> VInt z) /\ (forall b, v <> VBool b)).
  { intros v f Hf Hn. split; intros z ->; simpl in Hf;
      apply float_of_int_not_nan in Hf; congruence. }
  unfold weight_of in He.
  destruct (is_None (weight_num item)) eqn:Hnone; simpl in He.
  - assert (Hn : weight_num item = VNone)
      by (destruct (weight_num item); trivial; discriminate).
    destruct (is_None (weight_rounded item)); simpl in He.
    + inversion He as [Hw]. rewrite <- Hw in Hnan. discriminate.
    + destruct (float_of_value (weight_rounded item)) as [f|x] eqn:Hf.
      * simpl in He. inversion He; subst f.
        exists (weight_rounded item), (e_weight e).
        destruct (Hnum _ _ Hf Hnan). repeat split; auto.
      * destruct x; simpl in He; try discriminate;
          inversion He as [Hw]; rewrite <- Hw in Hnan; discriminate.
  - destruct (float_of_value (weight_num item)) as [f|x] eqn:Hf.
    + simpl in He. inversion He as [Hw]. rewrite <- Hw in Hnan.
      apply round_nan, float_mul_100_nan in Hnan.
      exists (weight_num item), f.
      destruct (Hnum _ _ Hf Hnan). repeat split; auto.
    + destruct x; simpl in He; try discriminate;
        inversion He as [Hw]; rewrite <- Hw in Hnan; discriminate.
Qed.

(** X19: the normalisation makes no NaN of its own: the weight of an
    entry is a NaN only if [float] of the field it was taken from is one,
    which an integer or a boolean never gives. *)
Theorem nan_weight_comes_from_input (item : dict) (e : entry) :
  entry_for item = Ok (Some e) ->
  float_is_nan (e_weight e) = true ->
  exists v f,
    (v = weight_num item \/
     weight_num item = VNone /\ v = weight_rounded item) /\
    float_of_value v = Ok f /\ float_is_nan f = true /\
    (forall z, v <> VInt z) /\ (forall b, v <> VBool b).
Proof. apply nan_weight_source. Qed.

Lemma nan_weight_comes_from_input_witness :
  let item := [(lit "asset_name", json_str "A");
               (lit "weight.numeric", json_str " NaN ")] in
  exists v f,
    (v = weight_num item \/
     weight_num item = VNone /\ v = weight_rounded item) /\
    float_of_value v = Ok f /\ float_is_nan f = true /\
    (forall z, v <> VInt z) /\ (forall b, v <> VBool b).
Proof.
  cbv zeta.
  apply (nan_weight_comes_from_input _
           {| e_name := lit "A"; e_weight := S754_nan;
              e_isin := None; e_ticker := None |});
    vm_compute; reflexivity.
Defined.

Lemma entries_nan_free (items : list dict) (es : list entry) :
  Forall (fun item => nan_free (weight_num item) = true /\
                      nan_free (weight_rounded item) = true) items ->
  entries items = Ok es ->
  Forall (fun e => float_is_nan (e_weight e) = false) es.
Proof.
  intros Hall; revert es.
  induction Hall as [|item rest [Hn Hr] Hall IH]; intros es H.
  - simpl in H. inversion H. constructor.
  - apply entries_Ok_cons in H. destruct H as (oe & es' & He & Hrest & ->).
    destruct oe as [e|]; [|now apply IH]. constructor; [|now apply IH].
    destruct (float_is_nan (e_weight e)) eqn:Hnan; trivial.
    destruct (nan_weight_source _ _ He Hnan)
      as (v & f & [->|[_ ->]] & Hf & Hfn & _).
    + unfold nan_free in Hn. rewrite Hf, Hfn in Hn. discriminate.
    + unfold nan_free in Hr. rewrite Hf, Hfn in Hr. discriminate.
Qed.

(** X20: when no weight field of the input converts to a NaN (so when
    the weights are JSON numbers other than [NaN], or are missing), a
    report has its holdings in descending order of weight. *)
Theorem sorted_when_input_has_no_nan
  (cb : value) (items : list dict) (rep : report) :
  Forall (fun item => nan_free (weight_num item) = true /\
                      nan_free (weight_rounded item) = true) items ->
  normalize cb items = Ok rep ->
  forall i j a b,
    (i < j)%nat ->
    nth_error (r_holdings rep) i = Some a ->
    nth_error (r_holdings rep) j = Some b ->
    float_ge (e_weight a) (e_weight b) = true.
Proof.
  intros Hall H i j a b Hij Ha Hb.
  apply normalize_Ok_inv in H. destruct H as (es & Hes & ->).
  cbn [r_holdings report_of] in *.
  pose proof (entries_nan_free _ _ Hall Hes) as Hnan.
  assert (Hnan' : Forall (fun e => float_is_nan (e_weight e) = false)
                    (sort_reverse e_weight es))
    by apply (Permutation_Forall
                (Permutation_sym (sort_reverse_Permutation e_weight es))),
       Hnan.
  rewrite Forall_forall in Hnan'.
  apply float_not_lt_ge; try (apply Hnan'; eapply nth_error_In; eassumption).
  apply (StronglySorted_nth_error _ _
           (sort_reverse_descending e_weight es Hnan) i j a b Hij Ha Hb).
Qed.

Lemma sorted_when_input_has_no_nan_witness :
  float_ge (float_of_decimal false 3 0) (float_of_decimal false 1 0) = true.
Proof.
  refine (sorted_when_input_has_no_nan VNone
            [[(lit "asset_name", json_str "A");
              (lit "weight.rounded", VInt 1)];
             [(lit "asset_name", json_str "B");
              (lit "weight.rounded", VInt 3)]]
            {| r_holdings :=
                 [{| e_name := lit "B"; e_weight := float_of_decimal false 3 0;
                     e_isin := None; e_ticker := None |};
                  {| e_name := lit "A"; e_weight := float_of_decimal false 1 0;
                     e_isin := None; e_ticker := None |}];
               r_cbondsId := VNone; r_totalCount := 2;
               r_availableFields :=
                 [lit "asset_name"; lit "weight.rounded"] |}
            _ _ 0%nat 1%nat _ _ _ eq_refl eq_refl).
  - repeat constructor.
  - vm_compute. reflexivity.
  - lia.
Defined.
